(** * chatlog: the media gateway of [internal/chatlog/http/route.go]

    A shallow embedding of the handlers [GetMedia], [GetMediaData],
    [HandleDatFile] and [HandleVoice], together with the parts of Go's
    [strings] and [path/filepath] packages they call, and the properties
    of the media reference resolution that the specification states. *)

From Stdlib Require Import String Ascii List ZArith Bool Arith Lia Permutation.
From Stdlib Require Import DecimalString.
Import ListNotations.

Local Open Scope string_scope.
Local Open Scope list_scope.

(** Go's [+] on strings. *)
Infix "+++" := String.append (at level 60, right associativity).

(** ** Package [strings] *)

Module Strings.

(** [strings.Split(s, sep)] for a one-byte separator: the pieces between
    the occurrences of [sep], in order; never the empty list. *)
Fixpoint Split (sep : ascii) (s : string) : list string :=
  match s with
  | EmptyString => [EmptyString]
  | String c s' =>
      if Ascii.eqb c sep then EmptyString :: Split sep s'
      else match Split sep s' with
           | [] => [String c EmptyString]
           | x :: xs => String c x :: xs
           end
  end.

(** [strings.HasPrefix(s, prefix)]. *)
Definition HasPrefix (s prefix : string) : bool := String.prefix prefix s.

(** [strings.TrimPrefix(s, prefix)]: [s] without the leading [prefix],
    or [s] itself when it does not start with it. *)
Definition TrimPrefix (s prefix : string) : string :=
  if HasPrefix s prefix
  then substring (String.length prefix) (String.length s - String.length prefix) s
  else s.

Definition lower (c : ascii) : ascii :=
  let n := nat_of_ascii c in
  if (65 <=? n)%nat && (n <=? 90)%nat then ascii_of_nat (n + 32) else c.

(** [strings.ToLower] on the ASCII letters; the other bytes are kept.
    No letter outside ASCII has [d], [a] or [t] as its lower case, so
    the comparison of a lowered extension with [.dat] is the one of the
    source. *)
Fixpoint ToLower (s : string) : string :=
  match s with
  | EmptyString => EmptyString
  | String c s' => String (lower c) (ToLower s')
  end.

(** [c] does not occur in [s]. *)
Fixpoint free_of (c : ascii) (s : string) : bool :=
  match s with
  | EmptyString => true
  | String d s' => negb (Ascii.eqb d c) && free_of c s'
  end.

(** [strings.Contains(s, substr)]: [substr] occurs in [s]. *)
Fixpoint Contains (s substr : string) : bool :=
  HasPrefix s substr ||
  match s with
  | EmptyString => false
  | String _ s' => Contains s' substr
  end.

(** The scan of [strings.ReplaceAll] for a non-empty [old]: after a
    match the remaining [skip] bytes of the occurrence are passed over. *)
Fixpoint replace_scan (old new : string) (skip : nat) (s : string) : string :=
  match s with
  | EmptyString => EmptyString
  | String c s' =>
      match skip with
      | S k => replace_scan old new k s'
      | O =>
          if HasPrefix s old
          then new +++ replace_scan old new (String.length old - 1) s'
          else String c (replace_scan old new 0 s')
      end
  end.

(** The number of occurrences of the byte [c] in [s]. *)
Fixpoint count_byte (c : ascii) (s : string) : nat :=
  match s with
  | EmptyString => 0
  | String d s' => (if Ascii.eqb d c then 1 else 0) + count_byte c s'
  end.

(** [strings.ReplaceAll(s, old, new)], for a non-empty [old]: the
    non-overlapping occurrences of [old], from the left, become [new]. *)
Definition ReplaceAll (s old new : string) : string := replace_scan old new 0 s.

End Strings.

(** ** Package [path/filepath] (Unix) *)

Module Filepath.

Definition Separator : ascii := "/"%char.

Definition IsRooted (path : string) : bool := Strings.HasPrefix path "/".

(** The elements of a path that [Clean] keeps for processing: empty
    elements (repeated separators) and [.] are dropped. *)
Definition keep (e : string) : bool := negb (e =? "") && negb (e =? ".").

Definition elems (path : string) : list string :=
  filter keep (Strings.Split Separator path).

(** One element processed by [Clean]; [out] is the path built so far,
    last element first.  A [..] removes the element before it, unless
    there is none or it is itself a [..]: then it is dropped in a rooted
    path and kept in a relative one. *)
Definition step (rooted : bool) (out : list string) (e : string) : list string :=
  if e =? ".." then
    match out with
    | top :: out' => if top =? ".." then e :: out else out'
    | [] => if rooted then [] else [e]
    end
  else e :: out.

Definition components (path : string) : list string :=
  rev (fold_left (step (IsRooted path)) (elems path) []).

(** [filepath.Clean(path)]: the shortest path equivalent to [path] by
    purely lexical processing. *)
Definition Clean (path : string) : string :=
  let body := String.concat "/" (components path) in
  if IsRooted path then "/" +++ body
  else if body =? "" then "." else body.

(** [filepath.Join(elem...)]: the first non-empty element and all that
    follow it, joined by the separator and cleaned; [""] when every
    element is empty. *)
Fixpoint Join (elem : list string) : string :=
  match elem with
  | [] => ""
  | e :: rest => if e =? "" then Join rest else Clean (String.concat "/" elem)
  end.

(** Scan of [filepath.Ext] from the last byte backwards: [rpath] is the
    part not yet visited, reversed, and [acc] the suffix already passed. *)
Fixpoint ext_scan (rpath : list ascii) (acc : string) : string :=
  match rpath with
  | [] => ""
  | c :: rpath' =>
      if Ascii.eqb c Separator then ""
      else if Ascii.eqb c "."%char then String c acc
      else ext_scan rpath' (String c acc)
  end.

(** [filepath.Ext(path)]: the suffix beginning at the final dot of the
    final element of [path], empty if there is no dot. *)
Definition Ext (path : string) : string :=
  ext_scan (rev (list_ascii_of_string path)) "".

(** An element as [Clean] processes it: not empty, not [.], and without
    a separator. *)
Definition element (e : string) : Prop :=
  keep e = true /\ Strings.free_of Separator e = true.

(** The shape of the path [Clean] builds, last element first: names on
    top of the leading [..]s, of which a rooted path has none. *)
Inductive cleaned (rooted : bool) : list string -> Prop :=
| cleaned_ups (n : nat) :
    (rooted = true -> n = 0%nat) -> cleaned rooted (repeat ".." n)
| cleaned_name (e : string) (out : list string) :
    e <> ".." -> cleaned rooted out -> cleaned rooted (e :: out).

(** Lexical containment: [path] names [root] itself or something below
    it, that is, the cleaned elements of [root] are a prefix of those of
    [path] and what follows never steps up. *)
Fixpoint strip_prefix (p l : list string) : option (list string) :=
  match p, l with
  | [], _ => Some l
  | x :: p', y :: l' => if x =? y then strip_prefix p' l' else None
  | _ :: _, [] => None
  end.

Definition within_root (root path : string) : bool :=
  Bool.eqb (IsRooted root) (IsRooted path) &&
  match strip_prefix (components root) (components path) with
  | Some rest => forallb (fun e => negb (e =? "..")) rest
  | None => false
  end.

End Filepath.

(** ** The data the handlers exchange *)

Definition bytes := list Byte.byte.

(** Go's [(value, error)] results. *)
Inductive result (E A : Type) : Type :=
| Ok (a : A)
| Fail (err : E).
Arguments Ok {E A} a.
Arguments Fail {E A} err.

(** ** Package [internal/errors] *)

Module Errors.

(** Modelled from the spec: package [internal/errors] ([errors.InvalidArg],
    [errors.Err]) is not among the sources.  The specification's taxonomy
    has an invalid argument, answered with status 400, and collaborator
    failures, answered with 404 when they are of the "not found" kind and
    with 500 otherwise. *)
Inductive error : Type :=
| InvalidArg (arg : string)
| NotFound (what : string)
| Internal (msg : string).

Definition StatusCode (err : error) : Z :=
  match err with
  | InvalidArg _ => 400
  | NotFound _ => 404
  | Internal _ => 500
  end%Z.

End Errors.
Export Errors.

(** The errors of [os.Stat] that the handlers tell apart through
    [os.IsNotExist]. *)
Inductive os_error : Type :=
| ErrNotExist
| ErrPermission
| ErrOther.

(** [os.IsNotExist(err)], on the error part of a call ([None] is [nil]). *)
Definition IsNotExist (err : option os_error) : bool :=
  match err with
  | Some ErrNotExist => true
  | _ => false
  end.

(** The fields of [model.Media] that the handlers read. *)
Record Media : Type := {
  Type_ : string;
  Path : string;
  Data : bytes
}.

(** [net/http] status codes. *)
Definition StatusOK : Z := 200.
Definition StatusFound : Z := 302.
Definition StatusBadRequest : Z := 400.
Definition StatusNotFound : Z := 404.

(** The values handed to [c.JSON]. *)
Inductive json : Type :=
| JMedia (media : Media)
| JH (key value : string).

(** What a handler writes on its [gin.Context]. *)
Inductive response : Type :=
| c_Redirect (code : Z) (location : string)
| c_JSON (code : Z) (obj : json)
| c_Data (code : Z) (contentType : string) (data : bytes)
| c_File (filepath : string)
| errors_Err (err : error).

(** The calls a handler makes to its collaborators, in order. *)
Inductive event : Type :=
| os_Stat_call (name : string)
| os_ReadFile_call (name : string)
| db_GetMedia_call (_type key : string)
| Dat2Image_call (data : bytes)
| Silk2MP3_call (data : bytes).

(** The status line of a written response; [c.File] answers 200 for a
    file it can serve. *)
Definition status (r : response) : Z :=
  match r with
  | c_Redirect code _ => code
  | c_JSON code _ => code
  | c_Data code _ _ => code
  | c_File _ => StatusOK
  | errors_Err err => StatusCode err
  end.

(** The request side of [gin.Context]. *)
Record Context : Type := {
  Param : string -> string;
  Query : string -> string
}.

(** The service: [s.ctx.DataDir] and [s.db]. *)
Record Service : Type := {
  DataDir : string;
  db_GetMedia : string -> string -> result error Media
}.

(** The packages the handlers call that are not among the sources:
    [os], [pkg/util], [pkg/util/dat2img] and [pkg/util/silk]. *)
Record Env : Type := {
  os_Stat : string -> option os_error;
  os_ReadFile : string -> result error bytes;
  Str2List : string -> string -> list string;
  Dat2Image : bytes -> result error (bytes * string);
  Silk2MP3 : bytes -> result error bytes
}.

(** The run of a handler: the response written on the context, if any,
    and the calls made.  For [GetMedia], [last_err] is the value of its
    local [_err] when it returned. *)
Record run : Type := {
  written : option response;
  last_err : option error;
  calls : list event
}.

(** A handler writes [r] and returns. *)
Definition ret (r : response) : run :=
  {| written := Some r; last_err := None; calls := [] |}.

(** A call to a collaborator, then the rest of the handler. *)
Definition after (ev : event) (r : run) : run :=
  {| written := written r; last_err := last_err r; calls := ev :: calls r |}.

(** The calls [evs], then the run [r]. *)
Definition after_calls (evs : list event) (r : run) : run :=
  {| written := written r; last_err := last_err r; calls := evs ++ calls r |}.

(** The run [r], reached with the accumulator holding [_err]. *)
Definition holding (_err : option error) (r : run) : run :=
  {| written := written r; last_err := _err; calls := calls r |}.

(** The files a run looked at or served. *)
Definition event_file (ev : event) : list string :=
  match ev with
  | os_Stat_call name => [name]
  | os_ReadFile_call name => [name]
  | _ => []
  end.

Definition files_touched (r : run) : list string :=
  flat_map event_file (calls r) ++
  match written r with
  | Some (c_File name) => [name]
  | _ => []
  end.

(** Modelled from the spec: [util.Str2List] is not among the sources.
    The key is split on the separator and the empty candidates are
    dropped. *)
Definition Str2List_spec (str sep : string) : list string :=
  match sep with
  | String c EmptyString =>
      filter (fun e => negb (e =? "")) (Strings.Split c str)
  | _ => [str]
  end.

(** ** The handlers *)

Section Handlers.

Variable env : Env.
Variable s : Service.

(** [HandleVoice]. *)
Definition HandleVoice (data : bytes) : run :=
  after (Silk2MP3_call data)
    match Silk2MP3 env data with
    | Fail _ => ret (c_Data StatusOK "audio/silk" data)
    | Ok out => ret (c_Data StatusOK "audio/mp3" out)
    end.

(** The [switch ext] of [HandleDatFile]. *)
Definition dat_content_type (ext : string) : string :=
  if ext =? "jpg" then "image/jpeg"
  else if ext =? "png" then "image/png"
  else if ext =? "gif" then "image/gif"
  else if ext =? "bmp" then "image/bmp"
  else "image/jpg".

(** [HandleDatFile]. *)
Definition HandleDatFile (path : string) : run :=
  after (os_ReadFile_call path)
    match os_ReadFile env path with
    | Fail err => ret (errors_Err err)
    | Ok b =>
        after (Dat2Image_call b)
          match Dat2Image env b with
          | Fail _ => ret (c_File path)
          | Ok (out, ext) => ret (c_Data StatusOK (dat_content_type ext) out)
          end
    end.

(** The path [GetMediaData] resolves its parameter to. *)
Definition data_absolutePath (c : Context) : string :=
  let relativePath := Filepath.Clean (Param c "path") in
  Filepath.Join [DataDir s; relativePath].

(** [GetMediaData]. *)
Definition GetMediaData (c : Context) : run :=
  let absolutePath := data_absolutePath c in
  after (os_Stat_call absolutePath)
    (if IsNotExist (os_Stat env absolutePath)
     then ret (c_JSON StatusNotFound (JH "error" "File not found"))
     else
       let ext := Strings.ToLower (Filepath.Ext absolutePath) in
       if ext =? ".dat" then HandleDatFile absolutePath
       else ret (c_File absolutePath)).

(** What [GetMedia] does with a record the store returned. *)
Definition serve_media (c : Context) (media : Media) : run :=
  if negb (Query c "info" =? "")
  then ret (c_JSON StatusOK (JMedia media))
  else if Type_ media =? "voice"
       then HandleVoice (Data media)
       else ret (c_Redirect StatusFound ("/data/" +++ Path media)).

(** The loop [for _, k := range keys] of [GetMedia]; [written] is [None]
    when the loop ends without a [return]. *)
Fixpoint range_keys (c : Context) (_type : string) (keys : list string)
    (_err : option error) : run :=
  match keys with
  | [] => {| written := None; last_err := _err; calls := [] |}
  | k :: keys' =>
      if negb (String.length k =? 32)%nat then
        let absolutePath := Filepath.Join [DataDir s; k] in
        after (os_Stat_call absolutePath)
          (if IsNotExist (os_Stat env absolutePath)
           then range_keys c _type keys' _err
           else holding _err (ret (c_Redirect StatusFound ("/data/" +++ k))))
      else
        after (db_GetMedia_call _type k)
          match db_GetMedia s _type k with
          | Fail err => range_keys c _type keys' (Some err)
          | Ok media => holding _err (serve_media c media)
          end
  end.

(** The end of [GetMedia], after the loop: the accumulated error, if
    there is one, is handed to [errors.Err]; otherwise the handler
    returns without writing. *)
Definition after_loop (r : run) : run :=
  match written r, last_err r with
  | None, Some _err => {| written := Some (errors_Err _err); last_err := last_err r; calls := calls r |}
  | _, _ => r
  end.

(** [GetMedia]. *)
Definition GetMedia (c : Context) (_type : string) : run :=
  let key := Strings.TrimPrefix (Param c "key") "/" in
  if key =? "" then ret (errors_Err (InvalidArg key))
  else
    let keys := Str2List env key "," in
    if (List.length keys =? 0)%nat then ret (errors_Err (InvalidArg key))
    else after_loop (range_keys c _type keys None).

Definition GetImage (c : Context) : run := GetMedia c "image".
Definition GetVideo (c : Context) : run := GetMedia c "video".
Definition GetFile (c : Context) : run := GetMedia c "file".
Definition GetVoice (c : Context) : run := GetMedia c "voice".

(** *** The candidates, as the loop sees them *)

(** The loop goes on to the next candidate: a path candidate that the
    probe reports as not existing, or a hash candidate whose lookup
    fails. *)
Definition skipped (_type k : string) : bool :=
  if negb (String.length k =? 32)%nat
  then IsNotExist (os_Stat env (Filepath.Join [DataDir s; k]))
  else match db_GetMedia s _type k with
       | Fail _ => true
       | Ok _ => false
       end.

(** The call the loop makes for a candidate. *)
Definition probe (_type k : string) : event :=
  if negb (String.length k =? 32)%nat
  then os_Stat_call (Filepath.Join [DataDir s; k])
  else db_GetMedia_call _type k.

(** The error a candidate leaves in the accumulator, if any. *)
Definition lookup_error (_type k : string) : option error :=
  if negb (String.length k =? 32)%nat then None
  else match db_GetMedia s _type k with
       | Fail err => Some err
       | Ok _ => None
       end.

(** The accumulator after the candidates [keys] were all skipped,
    starting from [_err]: the error of the last failing lookup. *)
Fixpoint err_after (_type : string) (keys : list string) (_err : option error)
    : option error :=
  match keys with
  | [] => _err
  | k :: keys' =>
      err_after _type keys'
        match lookup_error _type k with
        | Some err => Some err
        | None => _err
        end
  end.

(** The first candidate the loop does not skip. *)
Definition first_viable (_type : string) (keys : list string) : option string :=
  find (fun k => negb (skipped _type k)) keys.

(** The response the loop returns at a candidate it does not skip. *)
Definition answer (c : Context) (_type k : string) : option response :=
  if negb (String.length k =? 32)%nat
  then Some (c_Redirect StatusFound ("/data/" +++ k))
  else match db_GetMedia s _type k with
       | Fail _ => None
       | Ok media => written (serve_media c media)
       end.

End Handlers.

(** ** The analysis helpers *)

(** A Go [map] with string keys, as the list of its entries, each key
    once.  The order of the list is not the order of a [range], which
    the language leaves open. *)
Section GoMap.

Variable V : Type.

Definition gomap : Type := list (string * V).

(** [m[k]], with the comma-ok result. *)
Fixpoint map_get (m : gomap) (k : string) : option V :=
  match m with
  | [] => None
  | (k', v) :: m' => if k' =? k then Some v else map_get m' k
  end.

(** [m[k]]: the zero value when the key is missing. *)
Definition map_at (zero : V) (m : gomap) (k : string) : V :=
  match map_get m k with
  | Some v => v
  | None => zero
  end.

(** [m[k] = v]. *)
Fixpoint map_set (m : gomap) (k : string) (v : V) : gomap :=
  match m with
  | [] => [(k, v)]
  | (k', v') :: m' =>
      if k' =? k then (k, v) :: m' else (k', v') :: map_set m' k v
  end.

End GoMap.

Arguments map_get {V} m k.
Arguments map_at {V} zero m k.
Arguments map_set {V} m k v.

(** The struct [topicSummary]. *)
Record topicSummary : Type := {
  topics : list string;
  keywords : list string
}.

(** One entry of the result of [extractGoldenQuotes]: the map with the
    keys [content], [index] and [length]. *)
Record quote : Type := {
  quote_content : string;
  quote_index : nat;
  quote_length : nat
}.

Section Analysis.

(** [strings.Fields], and the order in which a [range] visits the
    entries of the word counts. *)
Variable Fields : string -> list string.
Variable range_order : gomap nat -> gomap nat.

(** The inner loop of the word count: [wordCount[word]++] for the words
    longer than one byte. *)
Definition count_word (wordCount : gomap nat) (word : string) : gomap nat :=
  if (1 <? String.length word)%nat
  then map_set wordCount word (map_at 0%nat wordCount word + 1)%nat
  else wordCount.

Definition count_words (contents : list string) : gomap nat :=
  fold_left (fun wordCount content => fold_left count_word (Fields content) wordCount)
    contents [].

(** The loop over the word counts that collects the keywords. *)
Definition collect_keywords (entries : gomap nat) : list string :=
  fold_left
    (fun keywords entry =>
       let '(word, count) := entry in
       if (3 <=? count)%nat && (1 <? String.length word)%nat
       then keywords ++ [word] else keywords)
    entries [].

(** [generateTopicSummary]. *)
Definition generateTopicSummary (contents : list string) : topicSummary :=
  let wordCount := count_words contents in
  let keywords := collect_keywords (range_order wordCount) in
  let keywords :=
    if (10 <? List.length keywords)%nat then firstn 10 keywords else keywords in
  let topics :=
    if (0 <? List.length contents)%nat then
      let topics := ["日常交流"] in
      let topics :=
        if (5 <? List.length keywords)%nat
        then topics ++ ["热门话题讨论"] else topics in
      if (100 <? List.length contents)%nat
      then topics ++ ["活跃群聊"] else topics
    else [] in
  {| topics := topics; keywords := keywords |}.

End Analysis.

(** The words [generateTopicSummary] can take as keywords, read off the
    contents: the distinct fields of more than one byte that occur three
    times or more. *)
Definition frequent_words (Fields : string -> list string)
    (contents : list string) : list string :=
  filter (fun w => (3 <=? count_occ string_dec (flat_map Fields contents) w)%nat)
    (nodup string_dec
       (filter (fun w => (1 <? String.length w)%nat) (flat_map Fields contents))).

(** The number of times [w] occurs among the fields of the contents. *)
Definition occurrences (Fields : string -> list string)
    (contents : list string) (w : string) : nat :=
  count_occ string_dec (flat_map Fields contents) w.

(** The test of the keyword loop, on an entry of the word counts. *)
Definition is_keyword (entry : string * nat) : bool :=
  (3 <=? snd entry)%nat && (1 <? String.length (fst entry))%nat.

(** [getActivityLevel]. *)
Definition getActivityLevel (messageCount : Z) : string :=
  if (100 <=? messageCount)%Z then "🔥 非常活跃"
  else if (50 <=? messageCount)%Z then "⚡ 活跃"
  else if (20 <=? messageCount)%Z then "📈 一般"
  else if (10 <=? messageCount)%Z then "📊 较少"
  else "😴 安静".

(** The levels, from the quietest. *)
Definition activity_levels : list string :=
  ["😴 安静"; "📊 较少"; "📈 一般"; "⚡ 活跃"; "🔥 非常活跃"].

(** The position of a level among [activity_levels]. *)
Fixpoint position (levels : list string) (level : string) : nat :=
  match levels with
  | [] => 0
  | l :: levels' => if l =? level then 0 else S (position levels' level)
  end.

(** The map [extractGoldenQuotes] builds for the message at position [i]. *)
Definition new_quote (i : nat) (msg : string) : quote :=
  {| quote_content := msg;
     quote_index := i + 1;
     quote_length := String.length msg |}.

(** The marks that make a message a candidate in the first loop. *)
Definition has_mark (msg : string) : bool :=
  Strings.Contains msg "！" || Strings.Contains msg "？" ||
  Strings.Contains msg "💡" || Strings.Contains msg "🌟" ||
  Strings.Contains msg "金句" || Strings.Contains msg "经典".

(** The first loop of [extractGoldenQuotes], from position [i]. *)
Fixpoint pick_marked (i : nat) (messages : list string) (quotes : list quote)
    : list quote :=
  match messages with
  | [] => quotes
  | msg :: messages' =>
      pick_marked (S i) messages'
        (if (15 <? String.length msg)%nat && (String.length msg <? 200)%nat
         then if has_mark msg then quotes ++ [new_quote i msg] else quotes
         else quotes)
  end.

(** The second loop, from position [i]: the long messages, while there
    are fewer than ten quotes, unless the content is already quoted. *)
Fixpoint pick_long (i : nat) (messages : list string) (quotes : list quote)
    : list quote :=
  match messages with
  | [] => quotes
  | msg :: messages' =>
      pick_long (S i) messages'
        (if (30 <? String.length msg)%nat && (List.length quotes <? 10)%nat
         then
           let isDuplicate := existsb (fun q => quote_content q =? msg) quotes in
           if negb isDuplicate then quotes ++ [new_quote i msg] else quotes
         else quotes)
  end.

(** [extractGoldenQuotes]. *)
Definition extractGoldenQuotes (messages : list string) : list quote :=
  let quotes := pick_marked 0 messages [] in
  let quotes :=
    if (List.length quotes <? 10)%nat then pick_long 0 messages quotes
    else quotes in
  if (10 <? List.length quotes)%nat then firstn 10 quotes else quotes.

(** The quotes of the first loop, read off the messages: the marked
    messages of more than 15 and fewer than 200 bytes, in order, each
    with its position counted from one. *)
Definition eligible (msg : string) : bool :=
  (15 <? String.length msg)%nat && (String.length msg <? 200)%nat && has_mark msg.

Definition marked_quotes (messages : list string) : list quote :=
  map (fun im => new_quote (fst im) (snd im))
    (filter (fun im => eligible (snd im))
       (combine (seq 0 (List.length messages)) messages)).

(** ** The analysis handlers *)

Definition StatusInternalServerError : Z := 500.

(** [g[groupKey] = append(g[groupKey], x)]. *)
Definition group_append {A : Type} (g : gomap (list A)) (groupKey : string) (x : A)
    : gomap (list A) :=
  map_set g groupKey (map_at [] g groupKey ++ [x]).

(** The number of elements in all the groups together. *)
Definition group_total {A : Type} (g : gomap (list A)) : nat :=
  list_sum (map (fun entry => List.length (snd entry)) g).

(** The loop that appends the elements of [l] that pass [keep], each
    as [f x], to the group [key x]. *)
Definition grouping {A B : Type} (key : B -> string) (f : B -> A)
    (keep : B -> bool) (l : list B) (g0 : gomap (list A)) : gomap (list A) :=
  fold_left (fun g x => if keep x then group_append g (key x) (f x) else g) l g0.

(** The query side of [gin.Context] with [GetQuery], which tells a
    missing key from an empty value. *)
Record Request : Type := {
  GetQuery : string -> option string;
  Host : string
}.

(** [c.Query(key)]. *)
Definition Request_Query (c : Request) (key : string) : string :=
  match GetQuery c key with
  | Some value => value
  | None => ""
  end.

(** [c.DefaultQuery(key, defaultValue)]. *)
Definition DefaultQuery (c : Request) (key defaultValue : string) : string :=
  match GetQuery c key with
  | Some value => value
  | None => defaultValue
  end.

(** The summary of one group in the result of [GetDailySummary]: the
    keys [message_count], [topics], [keywords] and [activity_level]. *)
Record groupSummary : Type := {
  message_count : nat;
  summary_topics : list string;
  summary_keywords : list string;
  activity_level : string
}.

(** The result of [GetDailySummary]: the keys [date], [total_groups],
    [total_messages], [summaries] and [generated_at]. *)
Record dailyResult : Type := {
  daily_date : string;
  total_groups : nat;
  daily_total_messages : nat;
  summaries : gomap groupSummary;
  daily_generated_at : string
}.

(** The result of [GetGoldenQuotes]: the keys [date], [talker],
    [total_quotes], [quotes] and [generated_at]. *)
Record quotesResult : Type := {
  quotes_date : string;
  quotes_talker : string;
  total_quotes : nat;
  quotes : list quote;
  quotes_generated_at : string
}.

(** One message in the result of [SearchMessages]: the keys [content],
    [time], [sender], [talker] and [type]. *)
Record searchHit : Type := {
  hit_content : string;
  hit_time : Z;
  hit_sender : string;
  hit_talker : string;
  hit_type : Z
}.

(** The result of [SearchMessages]: the keys [keyword], [search_days],
    [total_messages], [grouped_results] and [search_time]. *)
Record searchResult : Type := {
  search_keyword : string;
  search_days : Z;
  search_total_messages : nat;
  grouped_results : gomap (list searchHit);
  search_time : string
}.

(** One message in the result of [GetChatroomHistory]: the keys
    [content], [time], [sender], [type] and [hour]. *)
Record historyEntry : Type := {
  entry_content : string;
  entry_time : Z;
  entry_sender : string;
  entry_type : Z;
  entry_hour : Z
}.

(** The result of [GetChatroomHistory]: [talker], the [stats]
    ([total_messages], [total_days], [start_date], [end_date]),
    [daily_messages] and [query_time]. *)
Record historyResult : Type := {
  history_talker : string;
  history_total_messages : nat;
  total_days : nat;
  start_date : string;
  end_date : string;
  daily_messages : gomap (list historyEntry);
  query_time : string
}.

(** The fields of [model.Contact] and [model.ChatRoom] that the
    handlers read, and the answers of the store that hold them. *)
Record Contact : Type := {
  Contact_UserName : string;
  Contact_Alias : string;
  Contact_Remark : string;
  Contact_NickName : string
}.

Record ChatRoom : Type := {
  ChatRoom_Name : string;
  ChatRoom_Remark : string;
  ChatRoom_NickName : string;
  ChatRoom_Owner : string;
  ChatRoom_Users : list string
}.

Record GetContactsResp : Type := { Contacts_Items : list Contact }.
Record GetChatRoomsResp : Type := { ChatRooms_Items : list ChatRoom }.

(** The query structs that [c.BindQuery] fills: the one of
    [GetChatlog], and the one of [GetContacts], [GetChatRooms] and
    [GetSessions]. *)
Record chatlogQuery : Type := {
  q_Time : string;
  q_Talker : string;
  q_Sender : string;
  q_Keyword : string;
  q_Limit : Z;
  q_Offset : Z;
  q_Format : string
}.

Record listQuery : Type := {
  l_Keyword : string;
  l_Limit : Z;
  l_Offset : Z;
  l_Format : string
}.

(** A value of the map [stats] of [GetAnalysisStats]. *)
Inductive stat : Type :=
| stat_count (n : nat)
| stat_text (s : string).

(** The line feed, and the verb [%d] of [fmt.Sprintf]. *)
Definition LF : string := String (ascii_of_nat 10) "".

Definition Itoa (n : Z) : string := NilZero.string_of_int (Z.to_int n).

(** The rows [fmt.Sprintf] makes for the CSV outputs. *)
Definition contact_row (contact : Contact) : string :=
  Contact_UserName contact +++ "," +++ Contact_Alias contact +++ ","
  +++ Contact_Remark contact +++ "," +++ Contact_NickName contact +++ LF.

Definition chatroom_row (chatRoom : ChatRoom) : string :=
  ChatRoom_Name chatRoom +++ "," +++ ChatRoom_Remark chatRoom +++ ","
  +++ ChatRoom_NickName chatRoom +++ "," +++ ChatRoom_Owner chatRoom +++ ","
  +++ Itoa (Z.of_nat (List.length (ChatRoom_Users chatRoom))) +++ LF.

Section Api.

(** An instant, [time.Time]. *)
Variable Time : Type.

(** The fields of [model.Message] that the handlers read. *)
Record Message : Type := {
  Message_Time : Time;
  Message_Talker : string;
  Message_Sender : string;
  Message_Type : Z;
  Message_Content : string
}.

(** The fields of [model.Session] that the handlers read, and the
    answer of the store that holds them. *)
Record Session : Type := {
  Session_UserName : string;
  Session_NOrder : Z;
  Session_NickName : string;
  Session_Content : string;
  Session_NTime : Time
}.

Record GetSessionsResp : Type := { Sessions_Items : list Session }.

(** The values handed to [c.JSON] by the handlers of the API. *)
Inductive jbody : Type :=
| J_H (fields : list (string * string))
| J_messages (messages : list Message)
| J_contacts (list : GetContactsResp)
| J_chatrooms (list : GetChatRoomsResp)
| J_sessions (sessions : GetSessionsResp)
| J_stats (stats : gomap stat)
| J_search (result : searchResult)
| J_history (result : historyResult)
| J_daily (result : dailyResult)
| J_quotes (result : quotesResult).

(** What a handler of the API does, in order: its calls to the store
    and to [os], and what it writes on its context. *)
Inductive effect : Type :=
| db_GetMessages_call (start end_ : Time) (talker sender keyword : string)
    (limit offset : Z)
| db_GetContacts_call (keyword : string) (limit offset : Z)
| db_GetChatRooms_call (keyword : string) (limit offset : Z)
| db_GetSessions_call (keyword : string) (limit offset : Z)
| Stat_call (name : string)
| Header_Set (key value : string)
| Writer_Flush
| WriteString (s : string)
| JSON (code : Z) (obj : jbody)
| File (filepath : string)
| Err (err : error).

(** What the handlers of the API call and is not among the sources:
    [time] ([Now] gives the instant of the n-th call of [time.Now] in a
    handler, [Time_String] is the verb [%s] on an instant), [strconv],
    [strings], [os], the iteration order of the runtime, the binding of
    the query by gin, [pkg/util], the [PlainText] methods of the model,
    and the store [s.db]. *)
Record Api : Type := {
  Now : nat -> Time;
  AddDate : Time -> Z -> Z -> Z -> Time;
  Format : Time -> string -> string;
  Parse : string -> string -> result error Time;
  Unix : Time -> Z;
  Hour : Time -> Z;
  Atoi : string -> result error Z;
  strings_Fields : string -> list string;
  word_range_order : gomap nat -> gomap nat;
  Stat : string -> option os_error;
  Time_String : Time -> string;
  BindQuery_chatlog : Request -> result error chatlogQuery;
  BindQuery_list : Request -> result error listQuery;
  TimeRangeOf : string -> Time * Time * bool;
  PerfectTimeFormat : Time -> Time -> string;
  Message_PlainText : Message -> bool -> string -> string -> string;
  Session_PlainText : Session -> Z -> string;
  db_GetMessages :
    Time -> Time -> string -> string -> string -> Z -> Z ->
    result error (list Message);
  db_GetContacts : string -> Z -> Z -> result error GetContactsResp;
  db_GetChatRooms : string -> Z -> Z -> result error GetChatRoomsResp;
  db_GetSessions : string -> Z -> Z -> result error GetSessionsResp
}.

Variable api : Api.

(** The [days] parameter as [SearchMessages] and [GetChatroomHistory]
    read it: the parsed number when it parses and is positive, the
    default otherwise. *)
Definition days_or (days : string) (default : Z) : Z :=
  match Atoi api days with
  | Ok d => if (0 <? d)%Z then d else default
  | Fail _ => default
  end.

(** The group a message of [SearchMessages] or [GetDailySummary] goes to. *)
Definition groupKey_of (msg : Message) : string :=
  if Message_Talker msg =? "" then "未知群聊" else Message_Talker msg.

(** [DownloadAnalysisFile]. *)
Definition DownloadAnalysisFile (c : Request) : list effect :=
  let file := Request_Query c "file" in
  let folder := Request_Query c "folder" in
  if negb (file =? "") then
    Stat_call file ::
    (if IsNotExist (Stat api file)
     then [JSON StatusNotFound (J_H [("error", "File not found")])]
     else [File file])
  else if negb (folder =? "") then
    Stat_call folder ::
    (if IsNotExist (Stat api folder)
     then [JSON StatusNotFound (J_H [("error", "Folder not found")])]
     else [JSON StatusOK
             (J_H [("message", "Folder download not implemented yet");
                   ("folder", folder)])])
  else [JSON StatusBadRequest (J_H [("error", "No file or folder specified")])].

(** [SearchMessages]. *)
Definition SearchMessages (c : Request) : list effect :=
  let keyword := Request_Query c "keyword" in
  let days := DefaultQuery c "days" "7" in
  if keyword =? "" then
    [JSON StatusBadRequest (J_H [("error", "Keyword is required")])]
  else
    let end_ := Now api 0 in
    let daysInt := days_or days 7 in
    let start := AddDate api end_ 0 0 (- daysInt) in
    db_GetMessages_call start end_ "" "" keyword 1000 0 ::
    match db_GetMessages api start end_ "" "" keyword 1000 0 with
    | Fail _ =>
        [JSON StatusInternalServerError (J_H [("error", "Failed to search messages")])]
    | Ok messages =>
        let groupedMessages :=
          fold_left
            (fun grouped msg =>
               let msgData :=
                 {| hit_content := Message_Content msg;
                    hit_time := Unix api (Message_Time msg);
                    hit_sender := Message_Sender msg;
                    hit_talker := Message_Talker msg;
                    hit_type := Message_Type msg |} in
               group_append grouped (groupKey_of msg) msgData)
            messages [] in
        [JSON StatusOK
           (J_search
              {| search_keyword := keyword;
                 search_days := daysInt;
                 search_total_messages := List.length messages;
                 grouped_results := groupedMessages;
                 search_time := Format api (Now api 1) "2006-01-02 15:04:05" |})]
    end.

(** [GetChatroomHistory]. *)
Definition GetChatroomHistory (c : Request) : list effect :=
  let talker := Request_Query c "talker" in
  let days := DefaultQuery c "days" "30" in
  if talker =? "" then
    [JSON StatusBadRequest (J_H [("error", "Talker is required")])]
  else
    let end_ := Now api 0 in
    let daysInt := days_or days 30 in
    let start := AddDate api end_ 0 0 (- daysInt) in
    db_GetMessages_call start end_ talker "" "" 5000 0 ::
    match db_GetMessages api start end_ talker "" "" 5000 0 with
    | Fail _ =>
        [JSON StatusInternalServerError
           (J_H [("error", "Failed to get chatroom history")])]
    | Ok messages =>
        let dailyMessages :=
          fold_left
            (fun daily msg =>
               let date := Format api (Message_Time msg) "2006-01-02" in
               let msgData :=
                 {| entry_content := Message_Content msg;
                    entry_time := Unix api (Message_Time msg);
                    entry_sender := Message_Sender msg;
                    entry_type := Message_Type msg;
                    entry_hour := Hour api (Message_Time msg) |} in
               group_append daily date msgData)
            messages [] in
        [JSON StatusOK
           (J_history
              {| history_talker := talker;
                 history_total_messages := List.length messages;
                 total_days := List.length dailyMessages;
                 start_date := Format api start "2006-01-02";
                 end_date := Format api end_ "2006-01-02";
                 daily_messages := dailyMessages;
                 query_time := Format api (Now api 1) "2006-01-02 15:04:05" |})]
    end.

(** The text messages of [GetDailySummary], grouped. *)
Definition group_texts (messages : list Message) : gomap (list string) :=
  fold_left
    (fun grouped msg =>
       if (Message_Type msg =? 1)%Z && negb (Message_Content msg =? "")
       then group_append grouped (groupKey_of msg) (Message_Content msg)
       else grouped)
    messages [].

(** The entry of [dailySummaries] for one group. *)
Definition summarize (contents : list string) : groupSummary :=
  let summary :=
    generateTopicSummary (strings_Fields api) (word_range_order api) contents in
  {| message_count := List.length contents;
     summary_topics := topics summary;
     summary_keywords := keywords summary;
     activity_level := getActivityLevel (Z.of_nat (List.length contents)) |}.

(** [GetDailySummary]. *)
Definition GetDailySummary (c : Request) : list effect :=
  let date := DefaultQuery c "date" (Format api (Now api 0) "2006-01-02") in
  let talker := Request_Query c "talker" in
  match Parse api "2006-01-02" date with
  | Fail _ => [JSON StatusBadRequest (J_H [("error", "Invalid date format")])]
  | Ok targetDate =>
      let start := targetDate in
      let end_ := AddDate api targetDate 0 0 1 in
      db_GetMessages_call start end_ talker "" "" 10000 0 ::
      match db_GetMessages api start end_ talker "" "" 10000 0 with
      | Fail _ =>
          [JSON StatusInternalServerError
             (J_H [("error", "Failed to get daily messages")])]
      | Ok messages =>
          let groupedMessages := group_texts messages in
          let dailySummaries :=
            fold_left
              (fun daily entry =>
                 let '(groupName, contents) := entry in
                 map_set daily groupName (summarize contents))
              groupedMessages [] in
          [JSON StatusOK
             (J_daily
                {| daily_date := date;
                   total_groups := List.length groupedMessages;
                   daily_total_messages := List.length messages;
                   summaries := dailySummaries;
                   daily_generated_at :=
                     Format api (Now api 1) "2006-01-02 15:04:05" |})]
      end
  end.

(** The text messages [GetGoldenQuotes] hands to [extractGoldenQuotes]. *)
Definition quotable (messages : list Message) : list string :=
  fold_left
    (fun textMessages msg =>
       if (Message_Type msg =? 1)%Z && negb (Message_Content msg =? "")
          && (10 <? String.length (Message_Content msg))%nat
       then textMessages ++ [Message_Content msg]
       else textMessages)
    messages [].

(** [GetGoldenQuotes]. *)
Definition GetGoldenQuotes (c : Request) : list effect :=
  let date := DefaultQuery c "date" (Format api (Now api 0) "2006-01-02") in
  let talker := Request_Query c "talker" in
  match Parse api "2006-01-02" date with
  | Fail _ => [JSON StatusBadRequest (J_H [("error", "Invalid date format")])]
  | Ok targetDate =>
      let start := targetDate in
      let end_ := AddDate api targetDate 0 0 1 in
      db_GetMessages_call start end_ talker "" "" 10000 0 ::
      match db_GetMessages api start end_ talker "" "" 10000 0 with
      | Fail _ =>
          [JSON StatusInternalServerError
             (J_H [("error", "Failed to get daily messages")])]
      | Ok messages =>
          let textMessages := quotable messages in
          let goldenQuotes := extractGoldenQuotes textMessages in
          [JSON StatusOK
             (J_quotes
                {| quotes_date := date;
                   quotes_talker := talker;
                   total_quotes := List.length goldenQuotes;
                   quotes := goldenQuotes;
                   quotes_generated_at :=
                     Format api (Now api 1) "2006-01-02 15:04:05" |})]
      end
  end.

(** The headers and the flush that open a streamed answer. *)
Definition stream_headers (contentType : string) : list effect :=
  [Header_Set "Content-Type" contentType;
   Header_Set "Cache-Control" "no-cache";
   Header_Set "Connection" "keep-alive";
   Writer_Flush].

(** [GetChatlog].  The formats compared with, [csv] and [json], have
    letters that are the lower case of ASCII letters only, so the
    lowering of [Strings.ToLower] decides as the source does. *)
Definition GetChatlog (c : Request) : list effect :=
  match BindQuery_chatlog api c with
  | Fail err => [Err err]
  | Ok q =>
      let '(start, end_, ok) := TimeRangeOf api (q_Time q) in
      (if negb ok then [Err (InvalidArg "time")] else []) ++
      let Limit := if (q_Limit q <? 0)%Z then 0%Z else q_Limit q in
      let Offset := if (q_Offset q <? 0)%Z then 0%Z else q_Offset q in
      db_GetMessages_call start end_ (q_Talker q) (q_Sender q) (q_Keyword q) Limit Offset ::
      match db_GetMessages api start end_ (q_Talker q) (q_Sender q) (q_Keyword q)
              Limit Offset with
      | Fail err => [Err err]
      | Ok messages =>
          let format := Strings.ToLower (q_Format q) in
          if format =? "csv" then []
          else if format =? "json" then [JSON StatusOK (J_messages messages)]
          else
            stream_headers "text/plain; charset=utf-8" ++
            flat_map
              (fun m =>
                 [WriteString
                    (Message_PlainText api m (Strings.Contains (q_Talker q) ",")
                       (PerfectTimeFormat api start end_) (Host c));
                  WriteString LF;
                  Writer_Flush])
              messages
      end
  end.

(** The header line and the rows of the contacts, as written. *)
Definition contacts_csv (items : list Contact) : list effect :=
  WriteString ("UserName,Alias,Remark,NickName" +++ LF)
  :: map (fun contact => WriteString (contact_row contact)) items.

(** [GetContacts]. *)
Definition GetContacts (c : Request) : list effect :=
  match BindQuery_list api c with
  | Fail err => [Err err]
  | Ok q =>
      db_GetContacts_call (l_Keyword q) (l_Limit q) (l_Offset q) ::
      match db_GetContacts api (l_Keyword q) (l_Limit q) (l_Offset q) with
      | Fail err => [Err err]
      | Ok list =>
          let format := Strings.ToLower (l_Format q) in
          if format =? "json" then [JSON StatusOK (J_contacts list)]
          else
            stream_headers
              (if format =? "csv" then "text/csv; charset=utf-8"
               else "text/plain; charset=utf-8")
            ++ contacts_csv (Contacts_Items list) ++ [Writer_Flush]
      end
  end.

(** The header line and the rows of the chat rooms, as written. *)
Definition chatrooms_csv (items : list ChatRoom) : list effect :=
  WriteString ("Name,Remark,NickName,Owner,UserCount" +++ LF)
  :: map (fun chatRoom => WriteString (chatroom_row chatRoom)) items.

(** [GetChatRooms]. *)
Definition GetChatRooms (c : Request) : list effect :=
  match BindQuery_list api c with
  | Fail err => [Err err]
  | Ok q =>
      db_GetChatRooms_call (l_Keyword q) (l_Limit q) (l_Offset q) ::
      match db_GetChatRooms api (l_Keyword q) (l_Limit q) (l_Offset q) with
      | Fail err => [Err err]
      | Ok list =>
          let format := Strings.ToLower (l_Format q) in
          if format =? "json" then [JSON StatusOK (J_chatrooms list)]
          else
            stream_headers
              (if format =? "csv" then "text/csv; charset=utf-8"
               else "text/plain; charset=utf-8")
            ++ chatrooms_csv (ChatRooms_Items list) ++ [Writer_Flush]
      end
  end.

(** The row [fmt.Sprintf] makes for a session: the line feeds of the
    content are written as a backslash and an [n]. *)
Definition session_row (session : Session) : string :=
  Session_UserName session +++ "," +++ Itoa (Session_NOrder session) +++ ","
  +++ Session_NickName session +++ ","
  +++ Strings.ReplaceAll (Session_Content session) LF "\n" +++ ","
  +++ Time_String api (Session_NTime session) +++ LF.

(** The header line and the rows of the sessions, as written. *)
Definition sessions_csv (items : list Session) : list effect :=
  WriteString ("UserName,NOrder,NickName,Content,NTime" +++ LF)
  :: map (fun session => WriteString (session_row session)) items.

(** [GetSessions]. *)
Definition GetSessions (c : Request) : list effect :=
  match BindQuery_list api c with
  | Fail err => [Err err]
  | Ok q =>
      db_GetSessions_call (l_Keyword q) (l_Limit q) (l_Offset q) ::
      match db_GetSessions api (l_Keyword q) (l_Limit q) (l_Offset q) with
      | Fail err => [Err err]
      | Ok sessions =>
          let format := Strings.ToLower (l_Format q) in
          if format =? "csv" then
            stream_headers "text/csv; charset=utf-8"
            ++ sessions_csv (Sessions_Items sessions) ++ [Writer_Flush]
          else if format =? "json" then [JSON StatusOK (J_sessions sessions)]
          else
            stream_headers "text/plain; charset=utf-8"
            ++ flat_map
                 (fun session =>
                    [WriteString (Session_PlainText api session 120);
                     WriteString LF])
                 (Sessions_Items sessions)
            ++ [Writer_Flush]
      end
  end.

(** The two headers of an export. *)
Definition export_headers (filename : string) : list effect :=
  [Header_Set "Content-Type" "text/csv; charset=utf-8";
   Header_Set "Content-Disposition" ("attachment; filename=" +++ filename)].

(** [ExportAnalysisData]. *)
Definition ExportAnalysisData (c : Request) : list effect :=
  let exportType := Request_Query c "type" in
  if exportType =? "sessions" then
    db_GetSessions_call "" 0 0 ::
    match db_GetSessions api "" 0 0 with
    | Fail _ =>
        [JSON StatusInternalServerError (J_H [("error", "Failed to get sessions")])]
    | Ok sessions =>
        export_headers "sessions_export.csv"
        ++ sessions_csv (Sessions_Items sessions)
    end
  else if exportType =? "contacts" then
    db_GetContacts_call "" 0 0 ::
    match db_GetContacts api "" 0 0 with
    | Fail _ =>
        [JSON StatusInternalServerError (J_H [("error", "Failed to get contacts")])]
    | Ok contacts =>
        export_headers "contacts_export.csv"
        ++ contacts_csv (Contacts_Items contacts)
    end
  else if exportType =? "chatrooms" then
    db_GetChatRooms_call "" 0 0 ::
    match db_GetChatRooms api "" 0 0 with
    | Fail _ =>
        [JSON StatusInternalServerError (J_H [("error", "Failed to get chatrooms")])]
    | Ok chatrooms =>
        export_headers "chatrooms_export.csv"
        ++ chatrooms_csv (ChatRooms_Items chatrooms)
    end
  else [JSON StatusBadRequest (J_H [("error", "Invalid export type")])].

(** [GetAnalysisStats]. *)
Definition GetAnalysisStats (c : Request) : list effect :=
  let stats : gomap stat := [] in
  let stats :=
    match db_GetSessions api "" 0 0 with
    | Ok sessions =>
        map_set stats "total_sessions"
          (stat_count (List.length (Sessions_Items sessions)))
    | Fail _ => stats
    end in
  let stats :=
    match db_GetContacts api "" 0 0 with
    | Ok contacts =>
        map_set stats "total_contacts"
          (stat_count (List.length (Contacts_Items contacts)))
    | Fail _ => stats
    end in
  let stats :=
    match db_GetChatRooms api "" 0 0 with
    | Ok chatrooms =>
        map_set stats "total_chatrooms"
          (stat_count (List.length (ChatRooms_Items chatrooms)))
    | Fail _ => stats
    end in
  let end_ := Now api 0 in
  let start := AddDate api end_ 0 0 (-7) in
  let stats :=
    match db_GetMessages api start end_ "" "" "" 0 0 with
    | Ok messages => map_set stats "recent_messages" (stat_count (List.length messages))
    | Fail _ => stats
    end in
  let stats :=
    map_set stats "generated_at"
      (stat_text (Format api (Now api 1) "2006-01-02 15:04:05")) in
  [db_GetSessions_call "" 0 0; db_GetContacts_call "" 0 0; db_GetChatRooms_call "" 0 0;
   db_GetMessages_call start end_ "" "" "" 0 0;
   JSON StatusOK (J_stats stats)].

End Api.

Arguments Message_Time {Time} m.
Arguments Message_Talker {Time} m.
Arguments Message_Sender {Time} m.
Arguments Message_Type {Time} m.
Arguments Message_Content {Time} m.
Arguments Session_UserName {Time} s.
Arguments Session_NOrder {Time} s.
Arguments Session_NickName {Time} s.
Arguments Session_Content {Time} s.
Arguments Session_NTime {Time} s.
Arguments Sessions_Items {Time} g.
Arguments J_H {Time} fields.
Arguments J_messages {Time} messages.
Arguments J_contacts {Time} list.
Arguments J_chatrooms {Time} list.
Arguments J_sessions {Time} sessions.
Arguments J_stats {Time} stats.
Arguments J_search {Time} result.
Arguments J_history {Time} result.
Arguments J_daily {Time} result.
Arguments J_quotes {Time} result.
Arguments db_GetMessages_call {Time} start end_ talker sender keyword limit offset.
Arguments db_GetContacts_call {Time} keyword limit offset.
Arguments db_GetChatRooms_call {Time} keyword limit offset.
Arguments db_GetSessions_call {Time} keyword limit offset.
Arguments Stat_call {Time} name.
Arguments Header_Set {Time} key value.
Arguments Writer_Flush {Time}.
Arguments WriteString {Time} s.
Arguments JSON {Time} code obj.
Arguments File {Time} filepath.
Arguments Err {Time} err.
Arguments Time_String {Time} a t.
Arguments BindQuery_chatlog {Time} a c.
Arguments BindQuery_list {Time} a c.
Arguments TimeRangeOf {Time} a s.
Arguments PerfectTimeFormat {Time} a start end_.
Arguments Message_PlainText {Time} a m showTalker timeFormat host.
Arguments Session_PlainText {Time} a s limit.
Arguments db_GetContacts {Time} a keyword limit offset.
Arguments db_GetChatRooms {Time} a keyword limit offset.
Arguments db_GetSessions {Time} a keyword limit offset.
Arguments stream_headers {Time} contentType.
Arguments GetChatlog {Time} api c.
Arguments contacts_csv {Time} items.
Arguments GetContacts {Time} api c.
Arguments chatrooms_csv {Time} items.
Arguments GetChatRooms {Time} api c.
Arguments session_row {Time} api session.
Arguments sessions_csv {Time} api items.
Arguments GetSessions {Time} api c.
Arguments export_headers {Time} filename.
Arguments ExportAnalysisData {Time} api c.
Arguments GetAnalysisStats {Time} api c.
Arguments Now {Time} a n.
Arguments AddDate {Time} a t years months days.
Arguments Format {Time} a t layout.
Arguments Parse {Time} a layout value.
Arguments Unix {Time} a t.
Arguments Hour {Time} a t.
Arguments Atoi {Time} a s.
Arguments strings_Fields {Time} a s.
Arguments word_range_order {Time} a m.
Arguments Stat {Time} a name.
Arguments db_GetMessages {Time} a start end_ talker sender keyword limit offset.
Arguments days_or {Time} api days default.
Arguments groupKey_of {Time} msg.
Arguments DownloadAnalysisFile {Time} api c.
Arguments SearchMessages {Time} api c.
Arguments GetChatroomHistory {Time} api c.
Arguments group_texts {Time} messages.
Arguments summarize {Time} api contents.
Arguments GetDailySummary {Time} api c.
Arguments quotable {Time} messages.
Arguments GetGoldenQuotes {Time} api c.

(** The strings a handler writes with [WriteString], in order. *)
Definition written_strings {Time : Type} (trace : list (effect Time)) : list string :=
  flat_map (fun e => match e with
                     | WriteString s => [s]
                     | _ => []
                     end) trace.

(** ** A small installation, for concrete runs *)

Module Demo.

Definition hashA : string := "aaaaaaaaaaaaaaaaaaaaaaaaaaaaaaaa".
Definition hashB : string := "bbbbbbbbbbbbbbbbbbbbbbbbbbbbbbbb".
Definition hashV : string := "cccccccccccccccccccccccccccccccc".

Definition imageRecord : Media :=
  {| Type_ := "image"; Path := "img/b.dat"; Data := [] |}.

Definition voiceRecord : Media :=
  {| Type_ := "voice"; Path := ""; Data := [Byte.x01; Byte.x02] |}.

(** [/wx/a.jpg], [/wx/img/b.dat] and [/wx/img/c.DAT] exist, the second
    in the container format; [/wx/locked] cannot be examined; nothing
    else exists. *)
Definition env : Env :=
  {| os_Stat := fun name =>
       if (name =? "/wx/a.jpg") || (name =? "/wx/img/b.dat")
          || (name =? "/wx/img/c.DAT") then None
       else if name =? "/wx/locked" then Some ErrPermission
       else Some ErrNotExist;
     os_ReadFile := fun name =>
       if name =? "/wx/img/b.dat" then Ok [Byte.x07; Byte.x89]
       else if name =? "/wx/img/c.DAT" then Ok [Byte.x00]
       else Fail (NotFound name);
     Str2List := Str2List_spec;
     Dat2Image := fun b =>
       match b with
       | Byte.x07 :: out => Ok (out, "png")
       | _ => Fail (Internal "unknown format")
       end;
     Silk2MP3 := fun data =>
       match data with
       | Byte.x01 :: out => Ok out
       | _ => Fail (Internal "not silk")
       end |}.

(** The store knows [hashB] (an image) and [hashV] (a voice message). *)
Definition service : Service :=
  {| DataDir := "/wx";
     db_GetMedia := fun _type k =>
       if k =? hashB then Ok imageRecord
       else if k =? hashV then Ok voiceRecord
       else Fail (NotFound k) |}.


(** A request with the given [key] or [path] parameter and [info] flag. *)
Definition request (key path info : string) : Context :=
  {| Param := fun name =>
       if name =? "key" then key else if name =? "path" then path else "";
     Query := fun name => if name =? "info" then info else "" |}.

(** Fields separated by single spaces, for the examples. *)
Definition fields (content : string) : list string :=
  filter (fun w => negb (w =? "")) (Strings.Split " " content).

End Demo.

(** An installation for the API: instants are seconds, a day has 86400
    of them, and the store answers every query for messages with the
    same four messages, unless the keyword is [boom]. *)
Module DemoApi.

Definition message (t : Z) (talker sender : string) (type : Z) (content : string)
    : Message Z :=
  {| Message_Time := t; Message_Talker := talker; Message_Sender := sender;
     Message_Type := type; Message_Content := content |}.

Definition found : list (Message Z) :=
  [message 10 "room1" "ann" 1 "hello there";
   message 20 "" "bob" 1 "0123456789 0123456789 金句";
   message 90000 "room1" "cat" 3 "";
   message 90010 "room1" "ann" 1 "0123456789012345678901234567890123456789"].

Definition ann : Contact :=
  {| Contact_UserName := "wxid_ann"; Contact_Alias := "ann";
     Contact_Remark := ""; Contact_NickName := "Ann" |}.

Definition chat : Session Z :=
  {| Session_UserName := "room1"; Session_NOrder := 3; Session_NickName := "Room";
     Session_Content := "one" +++ LF +++ "two"; Session_NTime := 90010%Z |}.

Definition day (t : Z) : string :=
  if (t <? 86400)%Z then "1970-01-01" else "1970-01-02".

Definition request (params : list (string * string)) : Request :=
  {| GetQuery := fun key => map_get params key; Host := "localhost:5030" |}.

Definition api : Api Z :=
  {| Now := fun n => (100000 + Z.of_nat n)%Z;
     AddDate := fun t years months days => (t + 86400 * days)%Z;
     Format := fun t layout =>
       if layout =? "2006-01-02" then day t else "1970-01-02 03:46:40";
     Parse := fun layout value =>
       if value =? "1970-01-01" then Ok 0%Z
       else if value =? "1970-01-02" then Ok 86400%Z
       else Fail (InvalidArg value);
     Unix := fun t => t;
     Hour := fun t => ((t / 3600) mod 24)%Z;
     Atoi := fun s =>
       if s =? "7" then Ok 7%Z
       else if s =? "30" then Ok 30%Z
       else if s =? "3" then Ok 3%Z
       else if s =? "-2" then Ok (-2)%Z
       else Fail (InvalidArg s);
     strings_Fields := Demo.fields;
     word_range_order := @rev _;
     Stat := os_Stat Demo.env;
     Time_String := fun t => Itoa t;
     BindQuery_chatlog := fun c =>
       Ok {| q_Time := Request_Query c "time";
             q_Talker := Request_Query c "talker";
             q_Sender := Request_Query c "sender";
             q_Keyword := Request_Query c "keyword";
             q_Limit := if Request_Query c "limit" =? "-2" then (-2)%Z else 0%Z;
             q_Offset := 0%Z;
             q_Format := Request_Query c "format" |};
     BindQuery_list := fun c =>
       Ok {| l_Keyword := Request_Query c "keyword";
             l_Limit := 0%Z; l_Offset := 0%Z;
             l_Format := Request_Query c "format" |};
     TimeRangeOf := fun s => (0%Z, 86400%Z, negb (s =? "never"));
     PerfectTimeFormat := fun start end_ => "15:04:05";
     Message_PlainText := fun m showTalker timeFormat host =>
       Message_Sender m +++ ": " +++ Message_Content m;
     Session_PlainText := fun s limit => Session_NickName s;
     db_GetMessages := fun start end_ talker sender keyword limit offset =>
       if keyword =? "boom" then Fail (Internal "store") else Ok found;
     db_GetContacts := fun keyword limit offset =>
       Ok {| Contacts_Items := [ann] |};
     db_GetChatRooms := fun keyword limit offset =>
       Fail (Internal "store");
     db_GetSessions := fun keyword limit offset =>
       Ok {| Sessions_Items := [chat] |} |}.

End DemoApi.

Example Clean_ex1 : Filepath.Clean "/../../etc/passwd" = "/etc/passwd".
Proof. reflexivity. Qed.
Example Clean_ex2 : Filepath.Clean "../../etc/passwd" = "../../etc/passwd".
Proof. reflexivity. Qed.
Example Clean_ex3 : Filepath.Clean "a//b/./c/../d/" = "a/b/d".
Proof. reflexivity. Qed.
Example Clean_ex4 : Filepath.Clean "" = "." /\ Filepath.Clean "/" = "/" /\ Filepath.Clean "a/.." = ".".
Proof. repeat split; reflexivity. Qed.
Example Join_ex1 : Filepath.Join ["/data"; "../../etc/passwd"] = "/etc/passwd".
Proof. reflexivity. Qed.
Example Join_ex2 : Filepath.Join ["/data"; "/etc/passwd"] = "/data/etc/passwd".
Proof. reflexivity. Qed.
Example Join_ex3 : Filepath.Join [""; Filepath.Clean "/../../etc/passwd"] = "/etc/passwd".
Proof. reflexivity. Qed.
Example Ext_ex : Filepath.Ext "/d/a.b/x.DaT" = ".DaT" /\ Filepath.Ext "/d/a.b/x" = "" /\ Strings.ToLower ".DaT" = ".dat".
Proof. repeat split; reflexivity. Qed.
Example Trim_ex : Strings.TrimPrefix "/a,b" "/" = "a,b" /\ Strings.TrimPrefix "a/" "/" = "a/" /\ Strings.TrimPrefix "/" "/" = "".
Proof. repeat split; reflexivity. Qed.
Example within_ex : Filepath.within_root "/data" "/data/etc/passwd" = true /\ Filepath.within_root "/data" "/etc/passwd" = false.
Proof. repeat split; reflexivity. Qed.
Example GetMedia_ex1 :
  written (GetMedia Demo.env Demo.service (Demo.request "/a.jpg" "" "") "image")
  = Some (c_Redirect 302 "/data/a.jpg").
Proof. reflexivity. Qed.
Example GetMedia_ex2 :
  GetMedia Demo.env Demo.service
    (Demo.request ("/nofile.jpg," +++ Demo.hashA +++ "," +++ Demo.hashV) "" "") "image"
  = {| written := Some (c_Data 200 "audio/mp3" [Byte.x02]);
       last_err := Some (NotFound Demo.hashA);
       calls := [os_Stat_call "/wx/nofile.jpg"; db_GetMedia_call "image" Demo.hashA;
                 db_GetMedia_call "image" Demo.hashV; Silk2MP3_call [Byte.x01; Byte.x02]] |}.
Proof. reflexivity. Qed.
Example GetMediaData_ex1 :
  GetMediaData Demo.env Demo.service (Demo.request "" "/img/../img/b.DAT/../b.dat" "")
  = {| written := Some (c_Data 200 "image/png" [Byte.x89]); last_err := None;
       calls := [os_Stat_call "/wx/img/b.dat"; os_ReadFile_call "/wx/img/b.dat";
                 Dat2Image_call [Byte.x07; Byte.x89]] |}.
Proof. reflexivity. Qed.

(** * Properties *)

(** ** Splitting and joining *)

Module StringsFacts.
Import Strings.

Lemma Split_cons (sep : ascii) (s : string) :
  exists x xs, Split sep s = x :: xs.
Proof.
  induction s as [|c s IH]; simpl.
  - now exists EmptyString, [].
  - destruct (Ascii.eqb c sep).
    + now exists EmptyString, (Split sep s).
    + destruct IH as (x & xs & ->). now exists (String c x), xs.
Qed.

Lemma Split_app (sep : ascii) (a b : string) :
  Split sep (a +++ String sep b) = Split sep a ++ Split sep b.
Proof.
  induction a as [|c a IH]; simpl.
  - now rewrite Ascii.eqb_refl.
  - destruct (Ascii.eqb c sep).
    + now rewrite IH.
    + rewrite IH. destruct (Split_cons sep a) as (x & xs & ->). reflexivity.
Qed.

Lemma Split_free (sep : ascii) (s : string) :
  free_of sep s = true -> Split sep s = [s].
Proof.
  induction s as [|c s IH]; simpl; intros H; [reflexivity|].
  apply andb_prop in H as [Hc Hs].
  apply negb_true_iff in Hc. rewrite Hc, (IH Hs). reflexivity.
Qed.

Lemma Split_all_free (sep : ascii) (s : string) :
  Forall (fun e => free_of sep e = true) (Split sep s).
Proof.
  induction s as [|c s IH]; simpl.
  - now repeat constructor.
  - destruct (Ascii.eqb c sep) eqn:E.
    + now constructor.
    + destruct (Split sep s) as [|x xs].
      * repeat constructor. simpl. now rewrite E.
      * inversion IH; subst. constructor; [|assumption].
        simpl. now rewrite E.
Qed.

Lemma Split_concat (sep : ascii) (l : list string) :
  l <> [] ->
  Forall (fun e => free_of sep e = true) l ->
  Split sep (String.concat (String sep "") l) = l.
Proof.
  induction l as [|x l IH]; intros Hne Hall; [congruence|].
  inversion Hall as [|? ? Hx Hl]; subst.
  destruct l as [|y l].
  - simpl. now apply Split_free.
  - change (String.concat (String sep "") (x :: y :: l))
      with (x +++ String sep (String.concat (String sep "") (y :: l))).
    rewrite Split_app, (Split_free _ _ Hx), IH by (congruence || assumption).
    reflexivity.
Qed.

Lemma prefix_empty (s : string) : String.prefix "" s = true.
Proof. now destruct s. Qed.

Lemma prefix_sep_cons (c : ascii) (t : string) :
  String.prefix "/" (String c t) = Ascii.eqb c "/"%char.
Proof.
  change (String.prefix "/" (String c t))
    with (if Ascii.ascii_dec "/"%char c then String.prefix "" t else false).
  destruct (Ascii.ascii_dec "/"%char c) as [<-|Hn].
  - now rewrite prefix_empty.
  - symmetry. apply Ascii.eqb_neq. congruence.
Qed.

End StringsFacts.

(** ** Cleaning and joining paths *)

Module FilepathFacts.
Import Strings Filepath StringsFacts.

Lemma elems_element (path : string) : Forall element (elems path).
Proof.
  apply Forall_forall. intros e He. apply filter_In in He as [Hin Hk].
  split; [assumption|].
  exact (proj1 (Forall_forall _ _) (Split_all_free Separator path) e Hin).
Qed.

Lemma step_element rooted out e :
  Forall element out -> element e -> Forall element (step rooted out e).
Proof.
  intros Hout He. unfold step.
  destruct (e =? ".."); [|now constructor].
  destruct out as [|top out'].
  - destruct rooted; [constructor|constructor; [assumption|constructor]].
  - destruct (top =? ".."); [now constructor|now inversion Hout].
Qed.

Lemma step_cleaned rooted out e :
  cleaned rooted out -> cleaned rooted (step rooted out e).
Proof.
  intros Hout. unfold step.
  destruct (String.eqb_spec e "..") as [->|Hne]; [|now constructor].
  destruct Hout as [n Hn|top out' Htop Hout'].
  - destruct n as [|n]; simpl.
    + destruct rooted.
      * now apply (cleaned_ups true 0).
      * now apply (cleaned_ups false 1).
    + destruct rooted; [specialize (Hn eq_refl); discriminate|].
      now apply (cleaned_ups false (S (S n))).
  - apply String.eqb_neq in Htop. now rewrite Htop.
Qed.

Lemma fold_step_inv rooted (l out : list string) :
  Forall element l -> Forall element out -> cleaned rooted out ->
  Forall element (fold_left (step rooted) l out) /\
  cleaned rooted (fold_left (step rooted) l out).
Proof.
  revert out. induction l as [|e l IH]; intros out Hl Hout Hc; simpl.
  - now split.
  - inversion Hl; subst. apply IH; auto using step_element, step_cleaned.
Qed.

Lemma cleaned_rooted_no_up out :
  cleaned true out -> Forall (fun e => e <> "..") out.
Proof.
  induction 1 as [n Hn|e out He _ IH].
  - rewrite (Hn eq_refl). constructor.
  - now constructor.
Qed.

Lemma fold_names rooted (names out : list string) :
  Forall (fun e => e <> "..") names ->
  fold_left (step rooted) names out = rev names ++ out.
Proof.
  revert out. induction names as [|e names IH]; intros out H; simpl; [reflexivity|].
  inversion H as [|? ? He Hn]; subst.
  unfold step at 2. apply String.eqb_neq in He. rewrite He.
  rewrite IH by assumption. now rewrite <- app_assoc.
Qed.

Lemma rev_repeat {A} (x : A) n : rev (repeat x n) = repeat x n.
Proof.
  induction n as [|n IH]; simpl; [reflexivity|].
  rewrite IH. clear IH. induction n as [|n IH]; simpl; [reflexivity|].
  now rewrite IH.
Qed.

Lemma fold_ups rooted n :
  (rooted = true -> n = 0%nat) ->
  fold_left (step rooted) (repeat ".." n) [] = repeat ".." n.
Proof.
  intros Hn. destruct rooted.
  - now rewrite (Hn eq_refl).
  - clear Hn. rewrite <- (rev_repeat ".." n) at 1.
    induction n as [|n IH]; simpl; [reflexivity|].
    rewrite fold_left_app, IH. simpl. now destruct n.
Qed.

(** Processing a cleaned path again gives it back. *)
Lemma fold_cleaned rooted out :
  cleaned rooted out -> fold_left (step rooted) (rev out) [] = out.
Proof.
  induction 1 as [n Hn|e out He _ IH].
  - rewrite rev_repeat. now apply fold_ups.
  - simpl. rewrite fold_left_app, IH. simpl.
    unfold step. apply String.eqb_neq in He. now rewrite He.
Qed.

Lemma components_inv (path : string) :
  Forall element (components path) /\
  cleaned (IsRooted path) (rev (components path)).
Proof.
  unfold components. rewrite rev_involutive.
  destruct (fold_step_inv (IsRooted path) (elems path) [])
    as [He Hc]; auto using elems_element.
  - now apply (cleaned_ups _ 0).
  - split; [|assumption]. now apply Forall_rev.
Qed.

Lemma filter_keep_elements (l : list string) :
  Forall element l -> filter keep l = l.
Proof.
  induction 1 as [|e l [He _] _ IH]; simpl; [reflexivity|].
  now rewrite He, IH.
Qed.

Lemma elems_concat (l : list string) :
  Forall element l -> elems (String.concat "/" l) = l.
Proof.
  intros Hl. unfold elems. destruct l as [|x l]; [reflexivity|].
  change "/" with (String Separator "").
  rewrite Split_concat; [now apply filter_keep_elements|congruence|].
  eapply Forall_impl; [|exact Hl]. now intros e [_ He].
Qed.

Lemma concat_elements_empty (l : list string) :
  Forall element l -> (String.concat "/" l =? "") = true -> l = [].
Proof.
  intros Hl H. destruct l as [|x l]; [reflexivity|]. exfalso.
  inversion Hl as [|? ? [Hx _] _]; subst.
  unfold keep in Hx. apply andb_prop in Hx as [Hx _].
  apply negb_true_iff in Hx.
  destruct x as [|c x]; [discriminate|].
  destruct l; simpl in H; discriminate.
Qed.

Lemma concat_elements_unrooted (l : list string) :
  Forall element l -> IsRooted (String.concat "/" l) = false.
Proof.
  intros Hl. destruct l as [|x l]; [reflexivity|].
  inversion Hl as [|? ? [Hx Hf] _]; subst.
  unfold keep in Hx. apply andb_prop in Hx as [Hx _].
  apply negb_true_iff in Hx.
  destruct x as [|c x]; [discriminate|].
  simpl in Hf. apply andb_prop in Hf as [Hc _]. apply negb_true_iff in Hc.
  unfold IsRooted, HasPrefix.
  destruct l; cbn [String.concat String.append]; now rewrite prefix_sep_cons.
Qed.

Lemma IsRooted_Clean (path : string) :
  IsRooted (Clean path) = IsRooted path.
Proof.
  unfold Clean. destruct (components_inv path) as [He _].
  destruct (IsRooted path) eqn:R.
  - unfold IsRooted, HasPrefix. cbn [String.append]. now rewrite prefix_sep_cons.
  - destruct (String.concat "/" (components path) =? ""); [reflexivity|].
    now apply concat_elements_unrooted.
Qed.

(** The elements of a cleaned path are its components. *)
Lemma elems_Clean (path : string) :
  elems (Clean path) = components path.
Proof.
  unfold Clean. destruct (components_inv path) as [He _].
  destruct (IsRooted path).
  - change ("/" +++ String.concat "/" (components path))
      with ("" +++ String Separator (String.concat "/" (components path))).
    unfold elems. rewrite Split_app. simpl.
    now apply elems_concat.
  - destruct (String.concat "/" (components path) =? "") eqn:E.
    + now rewrite (concat_elements_empty _ He E).
    + now apply elems_concat.
Qed.

(** [Clean] is idempotent, on the components. *)
Lemma components_Clean (path : string) :
  components (Clean path) = components path.
Proof.
  unfold components at 1. rewrite IsRooted_Clean, elems_Clean.
  destruct (components_inv path) as [_ Hc].
  rewrite <- (rev_involutive (components path)) at 1.
  rewrite (fold_cleaned _ _ Hc). apply rev_involutive.
Qed.

Lemma elems_app (a b : string) :
  elems (a +++ String Separator b) = elems a ++ elems b.
Proof. unfold elems. now rewrite Split_app, filter_app. Qed.

Lemma IsRooted_app (a b : string) :
  a <> "" -> IsRooted (a +++ b) = IsRooted a.
Proof.
  intros Ha. destruct a as [|c a]; [congruence|].
  unfold IsRooted, HasPrefix. cbn [String.append].
  now rewrite !prefix_sep_cons.
Qed.

Lemma strip_prefix_app (p l : list string) :
  strip_prefix p (p ++ l) = Some l.
Proof.
  induction p as [|x p IH]; simpl; [reflexivity|].
  now rewrite String.eqb_refl.
Qed.

(** A rooted path, cleaned and joined to a root, stays below the root. *)
Lemma Join_rooted_within (root path : string) :
  root <> "" -> IsRooted path = true ->
  within_root root (Join [root; Clean path]) = true.
Proof.
  intros Hroot Hpath.
  assert (Join [root; Clean path] = Clean (root +++ String Separator (Clean path))) as ->.
  { simpl. destruct (String.eqb_spec root ""); [contradiction|reflexivity]. }
  unfold within_root.
  rewrite IsRooted_Clean, IsRooted_app, Bool.eqb_reflx by assumption. simpl.
  rewrite components_Clean. unfold components at 2.
  rewrite IsRooted_app, elems_app, elems_Clean, fold_left_app by assumption.
  destruct (components_inv path) as [_ Hc]. rewrite Hpath in Hc.
  apply cleaned_rooted_no_up in Hc.
  assert (Forall (fun e => e <> "..") (components path)) as Hn.
  { rewrite <- (rev_involutive (components path)). now apply Forall_rev. }
  rewrite fold_names, rev_app_distr, rev_involutive by assumption.
  fold (components root). rewrite strip_prefix_app.
  apply forallb_forall. intros e He.
  apply negb_true_iff, String.eqb_neq.
  exact (proj1 (Forall_forall _ _) Hn e He).
Qed.

End FilepathFacts.

(** ** The candidate loop *)

Section GatewayFacts.

Variable env : Env.
Variable s : Service.

Lemma serve_media_cases (c : Context) (media : Media) :
  (Query c "info" <> "" /\
   serve_media env c media = ret (c_JSON StatusOK (JMedia media))) \/
  (Query c "info" = "" /\ Type_ media = "voice" /\
   serve_media env c media = HandleVoice env (Data media)) \/
  (Query c "info" = "" /\ Type_ media <> "voice" /\
   serve_media env c media = ret (c_Redirect StatusFound ("/data/" +++ Path media))).
Proof.
  unfold serve_media.
  destruct (String.eqb_spec (Query c "info") "") as [Hi|Hi]; simpl.
  - destruct (String.eqb_spec (Type_ media) "voice"); auto.
  - auto.
Qed.

Lemma HandleVoice_written (data : bytes) :
  exists contentType out,
    written (HandleVoice env data) = Some (c_Data StatusOK contentType out) /\
    calls (HandleVoice env data) = [Silk2MP3_call data].
Proof.
  unfold HandleVoice. destruct (Silk2MP3 env data); simpl; eauto.
Qed.

(** A record is always answered, and never by [errors.Err]. *)
Lemma serve_media_written (c : Context) (media : Media) :
  exists resp,
    written (serve_media env c media) = Some resp /\
    (status resp = StatusOK \/ status resp = StatusFound) /\
    (forall err, resp <> errors_Err err).
Proof.
  destruct (serve_media_cases c media) as [[_ ->]|[(_ & _ & ->)|(_ & _ & ->)]].
  - eexists; split; [reflexivity|]. split; [now left|discriminate].
  - destruct (HandleVoice_written (Data media)) as (ct & out & -> & _).
    eexists; split; [reflexivity|]. split; [now left|discriminate].
  - eexists; split; [reflexivity|]. split; [now right|discriminate].
Qed.

Lemma serve_media_calls (c : Context) (media : Media) (ev : event) :
  In ev (calls (serve_media env c media)) -> ev = Silk2MP3_call (Data media).
Proof.
  destruct (serve_media_cases c media) as [[_ ->]|[(_ & _ & ->)|(_ & _ & ->)]].
  - contradiction.
  - destruct (HandleVoice_written (Data media)) as (_ & _ & _ & ->).
    intros [<-|[]]. reflexivity.
  - contradiction.
Qed.

(** Skipped candidates leave only their probes and the error of the
    last failing lookup. *)
Lemma range_keys_skip (c : Context) (_type : string) (pre rest : list string)
    (_err : option error) :
  forallb (skipped env s _type) pre = true ->
  range_keys env s c _type (pre ++ rest) _err
  = after_calls (map (probe s _type) pre)
      (range_keys env s c _type rest (err_after s _type pre _err)).
Proof.
  revert _err. induction pre as [|k pre IH]; intros _err H.
  - simpl. now destruct (range_keys env s c _type rest _err).
  - cbn [forallb] in H. apply andb_prop in H as [Hk Hpre].
    cbn [app range_keys map err_after].
    unfold skipped in Hk. unfold probe at 1. unfold lookup_error.
    destruct (negb (String.length k =? 32)%nat).
    + rewrite Hk, (IH _ Hpre). reflexivity.
    + destruct (db_GetMedia s _type k); [discriminate|].
      rewrite (IH _ Hpre). reflexivity.
Qed.

(** The loop at a candidate it does not skip. *)
Lemma range_keys_viable (c : Context) (_type k : string) (rest : list string)
    (_err : option error) :
  skipped env s _type k = false ->
  written (range_keys env s c _type (k :: rest) _err) = answer env s c _type k /\
  last_err (range_keys env s c _type (k :: rest) _err) = _err.
Proof.
  intros Hk. unfold skipped in Hk. unfold answer. cbn [range_keys].
  destruct (negb (String.length k =? 32)%nat).
  - now rewrite Hk.
  - now destruct (db_GetMedia s _type k).
Qed.

Lemma first_viable_split (_type : string) (keys : list string) (k : string) :
  first_viable env s _type keys = Some k ->
  exists pre rest,
    keys = pre ++ k :: rest /\
    forallb (skipped env s _type) pre = true /\
    skipped env s _type k = false.
Proof.
  unfold first_viable. induction keys as [|k0 keys IH]; simpl; [discriminate|].
  destruct (skipped env s _type k0) eqn:E; simpl.
  - intros H. destruct (IH H) as (pre & rest & -> & Hpre & Hk).
    exists (k0 :: pre), rest. simpl. now rewrite E.
  - intros [= ->]. now exists [], keys.
Qed.

Lemma first_viable_exists (_type : string) (keys : list string) (k : string) :
  In k keys -> skipped env s _type k = false ->
  exists k', first_viable env s _type keys = Some k'.
Proof.
  intros Hin Hk. unfold first_viable.
  destruct (find _ keys) eqn:E; [eauto|].
  apply (find_none _ _ E) in Hin. now rewrite Hk in Hin.
Qed.

(** The accumulator only ever holds the error of a failed lookup. *)
Lemma err_after_origin (_type : string) (pre : list string) (_err : option error) :
  err_after s _type pre _err = _err \/
  exists k err, In k pre /\ String.length k = 32%nat /\
    db_GetMedia s _type k = Fail err /\ err_after s _type pre _err = Some err.
Proof.
  revert _err. induction pre as [|k pre IH]; intros _err; simpl; [now left|].
  destruct (IH (match lookup_error s _type k with
                | Some err => Some err | None => _err end))
    as [->|(k' & err & Hin & Hl & Hdb & ->)].
  - unfold lookup_error.
    destruct (Nat.eqb_spec (String.length k) 32) as [Hl|Hl]; simpl; [|now left].
    destruct (db_GetMedia s _type k) eqn:Hdb; [now left|].
    right. exists k, err. auto.
  - right. exists k', err. auto.
Qed.

(** A lookup that was made and succeeded decides the response. *)
Lemma range_keys_hit (c : Context) (_type k : string) (media : Media)
    (keys : list string) (_err : option error) :
  In (db_GetMedia_call _type k) (calls (range_keys env s c _type keys _err)) ->
  db_GetMedia s _type k = Ok media ->
  written (range_keys env s c _type keys _err) = written (serve_media env c media) /\
  exists before,
    calls (range_keys env s c _type keys _err)
    = before ++ db_GetMedia_call _type k :: calls (serve_media env c media) /\
    forall data, ~ In (Silk2MP3_call data) before.
Proof.
  intros Hin Hdb. revert _err Hin.
  induction keys as [|k0 keys IH]; intros _err Hin; [contradiction|].
  cbn [range_keys] in *.
  destruct (negb (String.length k0 =? 32)%nat).
  - destruct (IsNotExist _).
    + destruct Hin as [Hin|Hin]; [discriminate|].
      destruct (IH _ Hin) as (Hw & before & Hc & Hb). split; [exact Hw|].
      exists (os_Stat_call (Filepath.Join [DataDir s; k0]) :: before).
      cbn [after calls]. rewrite Hc. split; [reflexivity|].
      intros data [Hd|Hd]; [discriminate|]. now apply (Hb data).
    + destruct Hin as [Hin|Hin]; [discriminate|contradiction].
  - destruct (db_GetMedia s _type k0) as [media0|err0] eqn:Hdb0.
    + destruct Hin as [Hin|Hin].
      * injection Hin as ->. rewrite Hdb in Hdb0. injection Hdb0 as <-.
        split; [reflexivity|]. exists []. split; [reflexivity|]. now intros data.
      * apply serve_media_calls in Hin. discriminate.
    + destruct Hin as [Hin|Hin].
      * injection Hin as ->. congruence.
      * destruct (IH _ Hin) as (Hw & before & Hc & Hb). split; [exact Hw|].
        exists (db_GetMedia_call _type k0 :: before).
        cbn [after calls]. rewrite Hc. split; [reflexivity|].
        intros data [Hd|Hd]; [discriminate|]. now apply (Hb data).
Qed.

Lemma after_loop_written (r : run) :
  written (after_loop r)
  = match written r with
    | Some resp => Some resp
    | None => option_map errors_Err (last_err r)
    end /\
  last_err (after_loop r) = last_err r /\
  calls (after_loop r) = calls r.
Proof.
  unfold after_loop. destruct (written r) eqn:W, (last_err r) eqn:L; simpl; auto.
Qed.

(** [GetMedia] past its two checks. *)
Lemma GetMedia_loop (c : Context) (_type : string) :
  Strings.TrimPrefix (Param c "key") "/" <> "" ->
  Str2List env (Strings.TrimPrefix (Param c "key") "/") "," <> [] ->
  GetMedia env s c _type
  = after_loop (range_keys env s c _type
      (Str2List env (Strings.TrimPrefix (Param c "key") "/") ",") None).
Proof.
  intros Hkey Hkeys. unfold GetMedia.
  apply String.eqb_neq in Hkey. rewrite Hkey.
  destruct (Str2List env _ ","); [congruence|reflexivity].
Qed.

(** When every candidate is skipped the loop ends without a response. *)
Lemma range_keys_exhausted (c : Context) (_type : string) (keys : list string)
    (_err : option error) :
  forallb (skipped env s _type) keys = true ->
  range_keys env s c _type keys _err
  = {| written := None; last_err := err_after s _type keys _err;
       calls := map (probe s _type) keys |}.
Proof.
  intros H. rewrite <- (app_nil_r keys) at 1.
  rewrite (range_keys_skip c _type keys [] _err H). unfold after_calls. simpl.
  now rewrite app_nil_r.
Qed.

End GatewayFacts.

(** ** The claims of the specification *)

Section Claims.

Variable env : Env.
Variable s : Service.

Lemma GetMedia_cases (c : Context) (_type : string) :
  let key := Strings.TrimPrefix (Param c "key") "/" in
  ((key = "" \/ Str2List env key "," = []) /\
   GetMedia env s c _type = ret (errors_Err (InvalidArg key))) \/
  (key <> "" /\ Str2List env key "," <> [] /\
   GetMedia env s c _type
   = after_loop (range_keys env s c _type (Str2List env key ",") None)).
Proof.
  intros key. unfold GetMedia. fold key.
  destruct (String.eqb_spec key "") as [Hk|Hk]; [left; auto|].
  destruct (Str2List env key ",") eqn:E; simpl.
  - left; auto.
  - right. repeat split; congruence.
Qed.


Lemma after_loop_after_calls (evs : list event) (r : run) :
  after_loop (after_calls evs r) = after_calls evs (after_loop r).
Proof.
  destruct r as [[resp|] [err|] evs']; reflexivity.
Qed.

(** With the [info] flag set the loop never transcodes, and redirects
    only to a path candidate that the probe did not report missing. *)
Lemma range_keys_info (c : Context) (_type : string) (keys : list string)
    (_err : option error) :
  Query c "info" <> "" ->
  (forall data, ~ In (Silk2MP3_call data) (calls (range_keys env s c _type keys _err))) /\
  (forall code location,
     written (range_keys env s c _type keys _err) = Some (c_Redirect code location) ->
     code = StatusFound /\
     exists k, In k keys /\ String.length k <> 32%nat /\
       location = "/data/" +++ k /\
       IsNotExist (os_Stat env (Filepath.Join [DataDir s; k])) = false).
Proof.
  intros Hinfo. revert _err. induction keys as [|k keys IH]; intros _err.
  - split; [now intros data|discriminate].
  - cbn [range_keys].
    destruct (Nat.eqb_spec (String.length k) 32) as [Hl|Hl]; cbn [negb].
    + destruct (db_GetMedia s _type k) as [media|err].
      * destruct (serve_media_cases env c media)
          as [[_ E]|[(Hi & _)|(Hi & _)]]; try contradiction.
        rewrite E. split.
        -- intros data [H|H]; [discriminate|contradiction].
        -- discriminate.
      * destruct (IH (Some err)) as [IH1 IH2]. split.
        -- intros data [H|H]; [discriminate|]. now apply (IH1 data).
        -- intros code location H. destruct (IH2 _ _ H) as (Hc & k' & Hin & Hk').
           split; [exact Hc|]. exists k'. split; [now right|exact Hk'].
    + destruct (IsNotExist _) eqn:E.
      * destruct (IH _err) as [IH1 IH2]. split.
        -- intros data [H|H]; [discriminate|]. now apply (IH1 data).
        -- intros code location H. destruct (IH2 _ _ H) as (Hc & k' & Hin & Hk').
           split; [exact Hc|]. exists k'. split; [now right|exact Hk'].
      * split.
        -- intros data [H|H]; [discriminate|contradiction].
        -- intros code location [= <- <-]. split; [reflexivity|].
           exists k. repeat split; auto. now left.
Qed.

(** Every file [GetMediaData] looks at or serves is the one path it
    resolved its parameter to. *)
Lemma GetMediaData_files (c : Context) :
  Forall (fun name => name = data_absolutePath s c)
    (files_touched (GetMediaData env s c)).
Proof.
  unfold GetMediaData, files_touched, HandleDatFile.
  destruct (IsNotExist _); [repeat constructor|].
  destruct (_ =? ".dat"); [|repeat constructor].
  destruct (os_ReadFile env _) as [b|err]; [|repeat constructor].
  destruct (Dat2Image env b) as [[out ext]|err]; repeat constructor.
Qed.

Lemma IsNotExist_true (err : option os_error) :
  IsNotExist err = true -> err = Some ErrNotExist.
Proof. destruct err as [[| |]|]; now try discriminate. Qed.

(** A candidate that is not skipped is answered, and not by
    [errors.Err]. *)
Lemma answer_viable (c : Context) (_type k : string) :
  skipped env s _type k = false ->
  exists resp,
    answer env s c _type k = Some resp /\
    (status resp = StatusOK \/ status resp = StatusFound) /\
    (forall err, resp <> errors_Err err).
Proof.
  unfold skipped, answer. destruct (negb _).
  - intros _. eexists. split; [reflexivity|]. split; [now right|discriminate].
  - destruct (db_GetMedia s _type k) as [media|]; [|discriminate].
    intros _. apply serve_media_written.
Qed.

(** [GetMedia] on a key whose first candidate not skipped is [k]. *)
Lemma GetMedia_viable (c : Context) (_type : string)
    (pre : list string) (k : string) (rest : list string) :
  Strings.TrimPrefix (Param c "key") "/" <> "" ->
  Str2List env (Strings.TrimPrefix (Param c "key") "/") "," = pre ++ k :: rest ->
  forallb (skipped env s _type) pre = true ->
  skipped env s _type k = false ->
  written (GetMedia env s c _type) = answer env s c _type k /\
  last_err (GetMedia env s c _type) = err_after s _type pre None /\
  calls (GetMedia env s c _type)
  = map (probe s _type) pre
    ++ calls (range_keys env s c _type (k :: rest) (err_after s _type pre None)).
Proof.
  intros Hkey Hkeys Hpre Hk.
  rewrite GetMedia_loop; [|exact Hkey|rewrite Hkeys; now destruct pre].
  rewrite Hkeys, (range_keys_skip env s c _type pre (k :: rest) None Hpre).
  rewrite after_loop_after_calls.
  destruct (after_loop_written
              (range_keys env s c _type (k :: rest) (err_after s _type pre None)))
    as (Hw & He & Hc).
  destruct (range_keys_viable env s c _type k rest (err_after s _type pre None) Hk)
    as [Hwk Hek].
  destruct (answer_viable c _type k Hk) as (resp & Hresp & _).
  cbn [after_calls written last_err calls].
  rewrite Hw, He, Hc, Hwk, Hek, Hresp. auto.
Qed.

Lemma some_viable (_type : string) (keys : list string) :
  forallb (skipped env s _type) keys = false ->
  exists k, first_viable env s _type keys = Some k.
Proof.
  unfold first_viable. induction keys as [|k keys IH]; simpl; [discriminate|].
  destruct (skipped env s _type k); simpl; [exact IH|eauto].
Qed.


(** C7. [HandleVoice] calls the transcoder once; when it succeeds the
    response is 200 [audio/mp3] with the transcoded bytes, when it fails
    the response is 200 [audio/silk] with the very bytes it was given;
    the failure is never handed to [errors.Err]. *)
Theorem C7_voice_transcoding (data : bytes) :
  let r := HandleVoice env data in
  calls r = [Silk2MP3_call data] /\
  (forall err, written r <> Some (errors_Err err)) /\
  match Silk2MP3 env data with
  | Ok out => written r = Some (c_Data StatusOK "audio/mp3" out)
  | Fail _ => written r = Some (c_Data StatusOK "audio/silk" data)
  end.
Proof.
  unfold HandleVoice. destruct (Silk2MP3 env data); simpl;
    (split; [reflexivity|split; [discriminate|reflexivity]]).
Qed.


(** C9. A path candidate (length other than 32) that the loop reaches is
    skipped only when [os.Stat] fails with "does not exist": then the
    request goes on with the candidates after it.  On any other result
    of the probe, success or another error such as a permission error,
    [GetMedia] redirects (302) to [/data/] followed by the candidate, and
    the probe was its last call: the file is never read. *)
Theorem C9_probe_failure_counts_as_present (c : Context) (_type : string)
    (pre : list string) (k : string) (rest : list string) :
  let key := Strings.TrimPrefix (Param c "key") "/" in
  let r := GetMedia env s c _type in
  let absolutePath := Filepath.Join [DataDir s; k] in
  key <> "" ->
  Str2List env key "," = pre ++ k :: rest ->
  forallb (skipped env s _type) pre = true ->
  String.length k <> 32%nat ->
  (os_Stat env absolutePath = Some ErrNotExist ->
   r = after_calls (map (probe s _type) pre ++ [os_Stat_call absolutePath])
         (after_loop (range_keys env s c _type rest (err_after s _type pre None)))) /\
  (os_Stat env absolutePath <> Some ErrNotExist ->
   written r = Some (c_Redirect StatusFound ("/data/" +++ k)) /\
   calls r = map (probe s _type) pre ++ [os_Stat_call absolutePath] /\
   forall name, ~ In (os_ReadFile_call name) (calls r)).
Proof.
  intros key r absolutePath Hkey Hkeys Hpre Hlen. subst r.
  rewrite GetMedia_loop; fold key; [|exact Hkey|rewrite Hkeys; now destruct pre].
  rewrite Hkeys, (range_keys_skip env s c _type pre (k :: rest) None Hpre).
  rewrite after_loop_after_calls. cbn [range_keys].
  apply Nat.eqb_neq in Hlen. rewrite Hlen. cbn [negb]. fold absolutePath.
  split.
  - intros Hstat. rewrite Hstat. cbn [IsNotExist].
    destruct (range_keys env s c _type rest (err_after s _type pre None))
      as [[resp|] [err|] evs]; unfold after_loop, after_calls, after; simpl;
      now rewrite <- app_assoc.
  - intros Hstat.
    assert (IsNotExist (os_Stat env absolutePath) = false) as ->.
    { destruct (os_Stat env absolutePath) as [[| |]|]; try reflexivity.
      now contradiction Hstat. }
    cbn. split; [reflexivity|]. split; [reflexivity|].
    intros name Hin. apply in_app_or in Hin as [Hin|[Hin|[]]]; [|discriminate].
    apply in_map_iff in Hin as (k' & Hk' & _). unfold probe in Hk'.
    destruct (negb _); discriminate.
Qed.


(** C2, as the code has it.  With the [info] flag set, a lookup that
    succeeds is answered at once with the record as a 200 JSON body: the
    lookup is the last call of the request.  No request with the flag
    set transcodes, and none redirects to a record's path: the only
    redirect left is the one to a path candidate (length other than 32)
    that the probe did not report missing, which the loop makes before
    it looks at the flag. *)
Theorem C2_info_returns_metadata (c : Context) (_type : string) :
  let key := Strings.TrimPrefix (Param c "key") "/" in
  let r := GetMedia env s c _type in
  Query c "info" <> "" ->
  (forall k media,
     In (db_GetMedia_call _type k) (calls r) ->
     db_GetMedia s _type k = Ok media ->
     written r = Some (c_JSON StatusOK (JMedia media)) /\
     exists before, calls r = before ++ [db_GetMedia_call _type k]) /\
  (forall data, ~ In (Silk2MP3_call data) (calls r)) /\
  (forall code location,
     written r = Some (c_Redirect code location) ->
     code = StatusFound /\
     exists k, In k (Str2List env key ",") /\ String.length k <> 32%nat /\
       location = "/data/" +++ k /\
       IsNotExist (os_Stat env (Filepath.Join [DataDir s; k])) = false).
Proof.
  intros key r Hinfo. subst r.
  pose proof (GetMedia_cases c _type) as G. cbv zeta in G. fold key in G.
  destruct G as [[_ E]|(_ & _ & E)]; rewrite E.
  - split; [intros k media []|]. split; [intros data []|discriminate].
  - set (l := range_keys env s c _type (Str2List env key ",") None).
    destruct (after_loop_written l) as (Hw & _ & Hc). rewrite Hc.
    destruct (range_keys_info c _type (Str2List env key ",") None Hinfo)
      as [Hsilk Hredir]. fold l in Hsilk, Hredir.
    split; [|split; [exact Hsilk|]].
    + intros k media Hin Hdb.
      destruct (range_keys_hit env s c _type k media _ None Hin Hdb)
        as (Hwl & before & Hcalls & _).
      fold l in Hwl, Hcalls. rewrite Hw, Hwl, Hcalls.
      destruct (serve_media_cases env c media)
        as [[_ ->]|[(Hi & _)|(Hi & _)]]; try contradiction.
      split; [reflexivity|]. now exists before.
    + intros code location H. apply Hredir. rewrite Hw in H.
      destruct (written l); [exact H|].
      destruct (last_err l); discriminate.
Qed.

(** C4. When the candidates of a key include a 32-character candidate
    that the store knows, [GetMedia] answers with the outcome of the
    first candidate, in the order of the key, that is not skipped: all
    the candidates before it were skipped, the path candidates among
    them because the probe reported them missing and without leaving an
    error; a path candidate that is not reported missing wins with a
    redirect (302) to [/data/] followed by it, whatever hash candidates
    come later; otherwise the first hash candidate found in the store is
    served.  The answer is a 200 or a 302, never an error. *)
Theorem C4_first_viable_candidate_wins (c : Context) (_type hash : string)
    (media : Media) :
  let key := Strings.TrimPrefix (Param c "key") "/" in
  let keys := Str2List env key "," in
  let r := GetMedia env s c _type in
  key <> "" ->
  In hash keys -> String.length hash = 32%nat ->
  db_GetMedia s _type hash = Ok media ->
  exists pre k rest resp,
    keys = pre ++ k :: rest /\
    forallb (skipped env s _type) pre = true /\
    first_viable env s _type keys = Some k /\
    written r = Some resp /\
    (status resp = StatusOK \/ status resp = StatusFound) /\
    (String.length k <> 32%nat ->
     resp = c_Redirect StatusFound ("/data/" +++ k)) /\
    (String.length k = 32%nat ->
     exists m, db_GetMedia s _type k = Ok m /\
       Some resp = written (serve_media env c m)) /\
    (forall k', In k' pre -> String.length k' <> 32%nat ->
       os_Stat env (Filepath.Join [DataDir s; k']) = Some ErrNotExist) /\
    (forall err, last_err r = Some err ->
       exists k', In k' pre /\ String.length k' = 32%nat /\
         db_GetMedia s _type k' = Fail err).
Proof.
  intros key keys r Hkey Hin Hlen Hdb. subst r.
  assert (skipped env s _type hash = false) as Hhash.
  { unfold skipped. rewrite Hlen, Hdb. reflexivity. }
  destruct (first_viable_exists env s _type keys hash Hin Hhash) as [k Hfirst].
  destruct (first_viable_split env s _type keys k Hfirst)
    as (pre & rest & Hkeys & Hpre & Hk).
  destruct (GetMedia_viable c _type pre k rest Hkey Hkeys Hpre Hk)
    as (Hw & He & _).
  destruct (answer_viable c _type k Hk) as (resp & Hresp & Hstatus & _).
  exists pre, k, rest, resp.
  split; [exact Hkeys|]. split; [exact Hpre|]. split; [exact Hfirst|].
  split; [now rewrite Hw|]. split; [exact Hstatus|].
  split; [|split; [|split]].
  - intros Hl. unfold answer in Hresp. apply Nat.eqb_neq in Hl.
    rewrite Hl in Hresp. now injection Hresp as <-.
  - intros Hl. unfold answer in Hresp. unfold skipped in Hk.
    rewrite Hl in Hresp, Hk.
    change (negb (32 =? 32)%nat) with false in Hresp, Hk. cbv iota in Hresp, Hk.
    destruct (db_GetMedia s _type k) as [m|]; [|discriminate].
    exists m. auto.
  - intros k' Hk' Hl. apply IsNotExist_true.
    apply (proj1 (forallb_forall _ _) Hpre) in Hk'. unfold skipped in Hk'.
    apply Nat.eqb_neq in Hl. now rewrite Hl in Hk'.
  - intros err Herr. rewrite He in Herr.
    destruct (err_after_origin s _type pre None)
      as [H|(k' & err' & Hk' & Hl & Hf & H)]; rewrite H in Herr; [discriminate|].
    injection Herr as <-. eauto.
Qed.

(** C5. The accumulator [_err] holds at most one error, that of the
    last lookup that failed.  [GetMedia] hands it to [errors.Err] only
    when every candidate was skipped.  For a key whose candidates are
    two 32-character hashes, the first absent from the store and the
    second present, the response is the one for the second record, it is
    not an error, and the accumulator then holds the error of the first
    lookup. *)
Theorem C5_error_accumulator (c : Context) (_type : string) :
  let key := Strings.TrimPrefix (Param c "key") "/" in
  let r := GetMedia env s c _type in
  (forall err,
     written r = Some (errors_Err err) -> calls r <> [] ->
     forallb (skipped env s _type) (Str2List env key ",") = true /\
     last_err r = Some err /\
     err_after s _type (Str2List env key ",") None = Some err) /\
  (forall a b erra media,
     key <> "" -> Str2List env key "," = [a; b] ->
     String.length a = 32%nat -> String.length b = 32%nat ->
     db_GetMedia s _type a = Fail erra ->
     db_GetMedia s _type b = Ok media ->
     written r = written (serve_media env c media) /\
     last_err r = Some erra /\
     (forall err, written r <> Some (errors_Err err)) /\
     calls r = db_GetMedia_call _type a :: db_GetMedia_call _type b
               :: calls (serve_media env c media)).
Proof.
  intros key r. subst r. split.
  - intros err Hw Hc.
    pose proof (GetMedia_cases c _type) as G. cbv zeta in G. fold key in G.
    destruct G as [[_ E]|(Hkey & Hne & E)]; [now rewrite E in Hc|].
    destruct (forallb (skipped env s _type) (Str2List env key ",")) eqn:Hall.
    + rewrite E, (range_keys_exhausted env s c _type _ None Hall) in *.
      unfold after_loop in *. cbn [written last_err] in *.
      destruct (err_after s _type (Str2List env key ",") None) as [e|];
        [|discriminate].
      cbn [written last_err] in *. injection Hw as <-. auto.
    + exfalso. destruct (some_viable _type _ Hall) as [k Hfirst].
      destruct (first_viable_split env s _type _ k Hfirst)
        as (pre & rest & Hkeys & Hpre & Hk).
      destruct (GetMedia_viable c _type pre k rest Hkey Hkeys Hpre Hk)
        as (Hwk & _).
      destruct (answer_viable c _type k Hk) as (resp & Hresp & _ & Hnot).
      rewrite Hwk, Hresp in Hw. injection Hw as ->. now apply (Hnot err).
  - intros a b erra media Hkey Hkeys Ha Hb Hdba Hdbb.
    assert (forallb (skipped env s _type) [a] = true) as Hpre.
    { cbn [forallb]. unfold skipped. now rewrite Ha, Hdba. }
    assert (skipped env s _type b = false) as Hk.
    { unfold skipped. now rewrite Hb, Hdbb. }
    destruct (GetMedia_viable c _type [a] b [] Hkey Hkeys Hpre Hk)
      as (Hw & He & Hc).
    assert (answer env s c _type b = written (serve_media env c media)) as Hans.
    { unfold answer. now rewrite Hb, Hdbb. }
    assert (err_after s _type [a] None = Some erra) as Herr.
    { cbn [err_after]. unfold lookup_error. now rewrite Ha, Hdba. }
    rewrite Hw, He, Hc, Hans, Herr.
    split; [reflexivity|]. split; [reflexivity|]. split.
    + intros err H.
      destruct (serve_media_written env c media) as (resp & Hresp & _ & Hnot).
      rewrite Hresp in H. injection H as ->. now apply (Hnot err).
    + cbn [map app range_keys]. unfold probe. rewrite Ha, Hb, Hdbb. reflexivity.
Qed.

(** C3. [GetMediaData] cleans the path parameter before it joins it to
    the data directory, and the first thing it does with the result is
    the existence check.  The parameter of the route [/data/*path] is
    the separator followed by the relative path of the request; with a
    data directory that is set, every file the handler then examines,
    reads or serves lies within the data directory, whatever [.] and
    [..] elements the relative path holds. *)
Theorem C3_data_path_stays_in_root (c : Context) (rel : string) :
  let r := GetMediaData env s c in
  DataDir s <> "" ->
  Param c "path" = "/" +++ rel ->
  (exists rest,
     calls r = os_Stat_call
                 (Filepath.Join [DataDir s; Filepath.Clean ("/" +++ rel)]) :: rest) /\
  Forall (fun name => Filepath.within_root (DataDir s) name = true)
    (files_touched r).
Proof.
  intros r Hroot Hparam. subst r. split.
  - unfold GetMediaData, data_absolutePath. rewrite Hparam.
    cbn [after calls]. eauto.
  - eapply Forall_impl; [|apply GetMediaData_files].
    intros name ->. unfold data_absolutePath. rewrite Hparam.
    apply FilepathFacts.Join_rooted_within; [exact Hroot|].
    unfold Filepath.IsRooted, Strings.HasPrefix. cbn [String.append].
    now rewrite StringsFacts.prefix_sep_cons.
Qed.

(** When every candidate is skipped, [GetMedia] hands the error of the
    last failed lookup to [errors.Err]; when there is none, because
    every candidate was a path candidate reported missing, it returns
    without writing a response. *)
Lemma GetMedia_exhausted (c : Context) (_type : string) :
  let key := Strings.TrimPrefix (Param c "key") "/" in
  let keys := Str2List env key "," in
  key <> "" -> keys <> [] ->
  forallb (skipped env s _type) keys = true ->
  written (GetMedia env s c _type)
  = option_map errors_Err (err_after s _type keys None) /\
  ((forall k, In k keys -> String.length k <> 32%nat) ->
   written (GetMedia env s c _type) = None).
Proof.
  intros key keys Hkey Hne Hall.
  rewrite (GetMedia_loop env s c _type Hkey Hne). fold key. fold keys.
  rewrite (range_keys_exhausted env s c _type keys None Hall).
  assert (written (after_loop {| written := None;
                                 last_err := err_after s _type keys None;
                                 calls := map (probe s _type) keys |})
          = option_map errors_Err (err_after s _type keys None)) as Hw.
  { unfold after_loop. cbn [written last_err].
    now destruct (err_after s _type keys None). }
  split; [exact Hw|].
  intros Hpaths. rewrite Hw.
  destruct (err_after_origin s _type keys None)
    as [->|(k & err & Hin & Hl & _)]; [reflexivity|].
  now apply Hpaths in Hin.
Qed.

End Claims.

(** ** Concrete runs *)

(** C1. The request [/image/nofile.jpg,sub/none.png] has two path
    candidates and neither file exists: the loop skips both, the
    accumulator is still empty, and [GetMedia] returns without writing
    any response; in particular it writes no 404. *)
Theorem C1_missing_paths_leave_no_response :
  let r := GetMedia Demo.env Demo.service
             (Demo.request "/nofile.jpg,sub/none.png" "" "") "image" in
  written r = None /\
  last_err r = None /\
  calls r = [os_Stat_call "/wx/nofile.jpg"; os_Stat_call "/wx/sub/none.png"] /\
  ~ (exists resp, written r = Some resp /\ status resp = StatusNotFound).
Proof.
  cbv zeta. repeat split. intros (resp & H & _). discriminate H.
Qed.

(** C2 as stated fails: with [info] set, a path candidate that exists is
    still answered by a redirect. *)
Lemma C2_info_does_not_stop_path_redirect :
  ~ (forall (env : Env) (s : Service) (c : Context) (_type : string),
       Query c "info" <> "" ->
       forall code location,
         written (GetMedia env s c _type) <> Some (c_Redirect code location)).
Proof.
  intros H.
  apply (H Demo.env Demo.service (Demo.request "/a.jpg" "" "1") "image")
    with (code := StatusFound) (location := "/data/a.jpg").
  - discriminate.
  - reflexivity.
Qed.


Lemma C2_info_returns_metadata_witness :
  written (GetMedia Demo.env Demo.service
             (Demo.request ("/nofile.jpg," +++ Demo.hashB) "" "1") "voice")
  = Some (c_JSON StatusOK (JMedia Demo.imageRecord)).
Proof.
  refine (proj1 (proj1 (C2_info_returns_metadata Demo.env Demo.service
            (Demo.request ("/nofile.jpg," +++ Demo.hashB) "" "1") "voice" _)
            Demo.hashB Demo.imageRecord _ _)).
  - discriminate.
  - simpl. auto.
  - reflexivity.
Defined.

Lemma C3_data_path_stays_in_root_witness :
  Forall (fun name => Filepath.within_root "/wx" name = true)
    (files_touched (GetMediaData Demo.env Demo.service
                      (Demo.request "" "/../../etc/passwd" ""))).
Proof.
  refine (proj2 (C3_data_path_stays_in_root Demo.env Demo.service
            (Demo.request "" "/../../etc/passwd" "") "../../etc/passwd" _ _)).
  - discriminate.
  - reflexivity.
Defined.

Lemma C4_first_viable_candidate_wins_witness :
  exists pre k rest resp,
    Str2List_spec ("nofile.jpg," +++ Demo.hashA +++ "," +++ Demo.hashB +++ ",a.jpg") ","
    = pre ++ k :: rest /\
    written (GetMedia Demo.env Demo.service
               (Demo.request ("/nofile.jpg," +++ Demo.hashA +++ "," +++ Demo.hashB
                              +++ ",a.jpg") "" "") "image")
    = Some resp.
Proof.
  destruct (C4_first_viable_candidate_wins Demo.env Demo.service
              (Demo.request ("/nofile.jpg," +++ Demo.hashA +++ "," +++ Demo.hashB
                             +++ ",a.jpg") "" "") "image" Demo.hashB Demo.imageRecord)
    as (pre & k & rest & resp & Hkeys & _ & _ & Hw & _).
  - discriminate.
  - simpl. auto.
  - reflexivity.
  - reflexivity.
  - exists pre, k, rest, resp. split; [exact Hkeys|exact Hw].
Defined.

Lemma C5_error_accumulator_witness :
  last_err (GetMedia Demo.env Demo.service
              (Demo.request ("/" +++ Demo.hashA +++ "," +++ Demo.hashB) "" "") "image")
  = Some (NotFound Demo.hashA).
Proof.
  refine (proj1 (proj2 (proj2 (C5_error_accumulator Demo.env Demo.service
            (Demo.request ("/" +++ Demo.hashA +++ "," +++ Demo.hashB) "" "") "image")
            Demo.hashA Demo.hashB (NotFound Demo.hashA) Demo.imageRecord
            _ _ _ _ _ _))).
  - discriminate.
  - reflexivity.
  - reflexivity.
  - reflexivity.
  - reflexivity.
  - reflexivity.
Defined.



Lemma C9_probe_failure_counts_as_present_witness :
  written (GetMedia Demo.env Demo.service
             (Demo.request "/nofile.jpg,locked,a.jpg" "" "") "image")
  = Some (c_Redirect StatusFound "/data/locked").
Proof.
  refine (proj1 (proj2 (C9_probe_failure_counts_as_present Demo.env Demo.service
            (Demo.request "/nofile.jpg,locked,a.jpg" "" "") "image"
            ["nofile.jpg"] "locked" ["a.jpg"] _ _ _ _) _)).
  - discriminate.
  - reflexivity.
  - reflexivity.
  - discriminate.
  - discriminate.
Defined.


(** ** The golden quotes *)

Module QuotesFacts.

Lemma In_firstn {A} (n : nat) (l : list A) (x : A) :
  In x (firstn n l) -> In x l.
Proof.
  revert n. induction l as [|y l IH]; intros [|n]; simpl; try tauto.
  intros [H|H]; [now left|right; eauto].
Qed.

Lemma NoDup_firstn {A} (n : nat) (l : list A) :
  NoDup l -> NoDup (firstn n l).
Proof.
  intros H. revert n. induction H as [|x l Hx _ IH]; intros [|n]; simpl;
    try constructor.
  - intros Hin. apply Hx. eapply In_firstn, Hin.
  - apply IH.
Qed.

(** Whatever holds of every quote a loop can add holds of its result. *)
Lemma pick_marked_all (P : quote -> Prop) (i : nat) (messages : list string)
    (quotes : list quote) :
  (forall j msg, nth_error messages j = Some msg -> eligible msg = true ->
     P (new_quote (i + j) msg)) ->
  Forall P quotes -> Forall P (pick_marked i messages quotes).
Proof.
  revert i quotes. induction messages as [|msg messages IH]; intros i quotes Hnew Hq.
  - exact Hq.
  - cbn [pick_marked]. apply IH.
    + intros j m Hj. replace (S i + j) with (i + S j) by lia. now apply (Hnew (S j)).
    + specialize (Hnew 0 msg eq_refl). rewrite Nat.add_0_r in Hnew.
      unfold eligible in Hnew.
      destruct ((15 <? String.length msg)%nat && (String.length msg <? 200)%nat);
        [|exact Hq].
      destruct (has_mark msg); [|exact Hq].
      apply Forall_app. split; [exact Hq|]. constructor; [now apply Hnew|constructor].
Qed.

Lemma pick_long_all (P : quote -> Prop) (i : nat) (messages : list string)
    (quotes : list quote) :
  (forall j msg, nth_error messages j = Some msg -> 30 < String.length msg ->
     P (new_quote (i + j) msg)) ->
  Forall P quotes -> Forall P (pick_long i messages quotes).
Proof.
  revert i quotes. induction messages as [|msg messages IH]; intros i quotes Hnew Hq.
  - exact Hq.
  - cbn [pick_long]. apply IH.
    + intros j m Hj. replace (S i + j) with (i + S j) by lia. now apply (Hnew (S j)).
    + specialize (Hnew 0 msg eq_refl). rewrite Nat.add_0_r in Hnew.
      destruct (Nat.ltb_spec 30 (String.length msg)); [|exact Hq]. cbn [andb].
      destruct (List.length quotes <? 10)%nat; [|exact Hq].
      destruct (existsb _ quotes); [exact Hq|]. cbn [negb].
      apply Forall_app. split; [exact Hq|]. constructor; [now apply Hnew|constructor].
Qed.

(** The second loop only appends, and what it appends is longer than 30
    bytes. *)
Lemma pick_long_extends (i : nat) (messages : list string) (quotes : list quote) :
  exists ext,
    pick_long i messages quotes = quotes ++ ext /\
    Forall (fun q => 30 < quote_length q) ext.
Proof.
  revert i quotes. induction messages as [|msg messages IH]; intros i quotes.
  - exists []. now rewrite app_nil_r.
  - cbn [pick_long].
    destruct (Nat.ltb_spec 30 (String.length msg)); cbn [andb]; [|apply IH].
    destruct (List.length quotes <? 10)%nat; [|apply IH].
    destruct (existsb _ quotes); cbn [negb]; [apply IH|].
    destruct (IH (S i) (quotes ++ [new_quote i msg])) as (ext & -> & Hext).
    exists (new_quote i msg :: ext). rewrite <- app_assoc. split; [reflexivity|].
    now constructor.
Qed.

(** The first loop is a filter of the messages. *)
Lemma pick_marked_filter (i : nat) (messages : list string) (quotes : list quote) :
  pick_marked i messages quotes
  = quotes ++ map (fun im => new_quote (fst im) (snd im))
                (filter (fun im => eligible (snd im))
                   (combine (seq i (List.length messages)) messages)).
Proof.
  revert i quotes. induction messages as [|msg messages IH]; intros i quotes.
  - simpl. now rewrite app_nil_r.
  - cbn [pick_marked List.length seq combine filter snd]. rewrite IH.
    unfold eligible at 2.
    destruct ((15 <? String.length msg)%nat && (String.length msg <? 200)%nat);
      [|reflexivity].
    cbn [andb]. destruct (has_mark msg); [|reflexivity].
    cbn [map fst snd]. now rewrite <- app_assoc.
Qed.

Lemma pick_marked_spec (messages : list string) :
  pick_marked 0 messages [] = marked_quotes messages.
Proof. now rewrite pick_marked_filter. Qed.

(** The result of [extractGoldenQuotes], in one expression. *)
Lemma extractGoldenQuotes_eq (messages : list string) :
  exists ext,
    extractGoldenQuotes messages = firstn 10 (marked_quotes messages ++ ext) /\
    Forall (fun q => 30 < quote_length q) ext /\
    (List.length (marked_quotes messages) < 10 ->
     marked_quotes messages ++ ext = pick_long 0 messages (marked_quotes messages)) /\
    (10 <= List.length (marked_quotes messages) -> ext = []).
Proof.
  unfold extractGoldenQuotes. rewrite pick_marked_spec.
  set (q1 := marked_quotes messages).
  assert (forall l : list quote,
            (if (10 <? List.length l)%nat then firstn 10 l else l) = firstn 10 l) as Hcut.
  { intros l. destruct (Nat.ltb_spec 10 (List.length l)); [reflexivity|].
    symmetry. now apply firstn_all2. }
  rewrite Hcut.
  destruct (Nat.ltb_spec (List.length q1) 10) as [Hlt|Hge].
  - destruct (pick_long_extends 0 messages q1) as (ext & E & Hext).
    exists ext. rewrite E. repeat split; auto. lia.
  - exists []. rewrite app_nil_r. repeat split; auto. lia.
Qed.

Lemma pick_long_complete (i : nat) (messages : list string) (quotes : list quote) :
  List.length (pick_long i messages quotes) < 10 ->
  forall msg, In msg messages -> 30 < String.length msg ->
    In msg (map quote_content (pick_long i messages quotes)).
Proof.
  revert i quotes. induction messages as [|m messages IH]; intros i quotes Hlen msg Hin Hlong.
  - contradiction.
  - cbn [pick_long] in *.
    set (quotes' := if (30 <? String.length m)%nat && (List.length quotes <? 10)%nat
                    then if negb (existsb (fun q => quote_content q =? m) quotes)
                         then quotes ++ [new_quote i m] else quotes
                    else quotes) in *.
    destruct Hin as [->|Hin]; [|now apply IH].
    destruct (pick_long_extends (S i) messages quotes') as (ext & E & _).
    rewrite E in *. rewrite map_app. apply in_or_app. left.
    assert (List.length quotes' < 10) as Hq'.
    { rewrite length_app in Hlen. lia. }
    subst quotes'.
    apply Nat.ltb_lt in Hlong. rewrite Hlong in *. cbn [andb] in *.
    destruct (Nat.ltb_spec (List.length quotes) 10) as [Hq|Hq].
    + destruct (existsb _ quotes) eqn:Hdup; cbn [negb] in *.
      * apply existsb_exists in Hdup as (q & Hq1 & Hq2).
        apply String.eqb_eq in Hq2. subst msg. now apply in_map.
      * rewrite map_app. apply in_or_app. right. now left.
    + lia.
Qed.

Lemma pick_long_NoDup (i : nat) (messages : list string) (quotes : list quote) :
  NoDup (map quote_content quotes) ->
  NoDup (map quote_content (pick_long i messages quotes)).
Proof.
  revert i quotes. induction messages as [|m messages IH]; intros i quotes H.
  - exact H.
  - cbn [pick_long]. apply IH.
    destruct ((30 <? String.length m)%nat && (List.length quotes <? 10)%nat);
      [|exact H].
    destruct (existsb _ quotes) eqn:Hdup; cbn [negb]; [exact H|].
    rewrite map_app. cbn [map quote_content new_quote].
    apply NoDup_rev in H. rewrite <- (rev_involutive (_ ++ [m])).
    apply NoDup_rev. rewrite rev_app_distr. cbn [rev app].
    constructor; [|exact H].
    intros Hin. apply in_rev in Hin. apply in_map_iff in Hin as (q & Hq1 & Hq2).
    assert (existsb (fun q => quote_content q =? m) quotes = true) as E.
    { apply existsb_exists. exists q. split; [exact Hq2|]. now apply String.eqb_eq. }
    congruence.
Qed.

End QuotesFacts.

(** ** The topic summary *)

Section GoMapFacts.

Variable V : Type.

Lemma map_get_set_same (m : gomap V) (k : string) (v : V) :
  map_get (map_set m k v) k = Some v.
Proof.
  induction m as [|[k' v'] m IH]; simpl.
  - now rewrite String.eqb_refl.
  - destruct (String.eqb_spec k' k) as [->|Hne]; simpl.
    + now rewrite String.eqb_refl.
    + apply String.eqb_neq in Hne. now rewrite Hne.
Qed.

Lemma map_get_set_other (m : gomap V) (k k' : string) (v : V) :
  k <> k' -> map_get (map_set m k v) k' = map_get m k'.
Proof.
  intros Hne. induction m as [|[k0 v0] m IH]; simpl.
  - apply String.eqb_neq in Hne. now rewrite Hne.
  - destruct (String.eqb_spec k0 k) as [->|Hk]; simpl.
    + apply String.eqb_neq in Hne. now rewrite Hne.
    + now rewrite IH.
Qed.

Lemma map_set_keys (m : gomap V) (k k' : string) (v : V) :
  In k' (map fst (map_set m k v)) <-> k' = k \/ In k' (map fst m).
Proof.
  induction m as [|[k0 v0] m IH]; simpl.
  - intuition.
  - destruct (String.eqb_spec k0 k) as [->|Hk]; simpl; intuition.
Qed.

(** Assignments keep each key once. *)
Lemma map_set_NoDup (m : gomap V) (k : string) (v : V) :
  NoDup (map fst m) -> NoDup (map fst (map_set m k v)).
Proof.
  induction m as [|[k0 v0] m IH]; simpl; intros H.
  - constructor; [tauto|constructor].
  - inversion H as [|? ? Hk0 Hm]; subst.
    destruct (String.eqb_spec k0 k) as [->|Hk]; simpl.
    + now constructor.
    + constructor; [|auto]. rewrite map_set_keys. intuition.
Qed.

Lemma map_get_In (m : gomap V) (k : string) (v : V) :
  NoDup (map fst m) -> (In (k, v) m <-> map_get m k = Some v).
Proof.
  induction m as [|[k0 v0] m IH]; simpl; intros H.
  - split; [tauto|discriminate].
  - inversion H as [|? ? Hk0 Hm]; subst.
    destruct (String.eqb_spec k0 k) as [->|Hk].
    + split.
      * intros [[= ->]|Hin]; [reflexivity|].
        exfalso. apply Hk0. now apply (in_map fst) in Hin.
      * intros [= ->]. now left.
    + rewrite <- (IH Hm). split; [|tauto].
      intros [[= -> _]|Hin]; [contradiction|exact Hin].
Qed.

Lemma map_get_key (m : gomap V) (k : string) :
  In k (map fst m) <-> exists v, map_get m k = Some v.
Proof.
  induction m as [|[k0 v0] m IH]; simpl.
  - split; [tauto|now intros [v H]].
  - destruct (String.eqb_spec k0 k) as [->|Hk].
    + split; eauto.
    + rewrite <- IH. tauto.
Qed.

End GoMapFacts.

Section TopicFacts.

Variable Fields : string -> list string.

Lemma count_word_at (m : gomap nat) (x w : string) :
  map_at 0 (count_word m x) w
  = map_at 0 m w + (if (1 <? String.length w)%nat
                    then (if string_dec x w then 1 else 0) else 0).
Proof.
  unfold count_word.
  destruct (string_dec x w) as [->|Hne].
  - destruct (1 <? String.length w)%nat; [|lia].
    unfold map_at at 1. now rewrite map_get_set_same.
  - destruct (1 <? String.length x)%nat.
    + unfold map_at at 1. rewrite map_get_set_other by assumption.
      fold (map_at 0 m w). destruct (1 <? String.length w)%nat; lia.
    + destruct (1 <? String.length w)%nat; lia.
Qed.

Lemma count_word_NoDup (m : gomap nat) (x : string) :
  NoDup (map fst m) -> NoDup (map fst (count_word m x)).
Proof.
  unfold count_word. destruct (1 <? String.length x)%nat; [|auto].
  apply map_set_NoDup.
Qed.

Lemma count_word_keys (m : gomap nat) (x w : string) :
  In w (map fst (count_word m x))
  <-> (w = x /\ 1 < String.length x) \/ In w (map fst m).
Proof.
  unfold count_word. destruct (Nat.ltb_spec 1 (String.length x)).
  - rewrite map_set_keys. intuition.
  - intuition. lia.
Qed.

Lemma fold_count_word (ws : list string) (m : gomap nat) (w : string) :
  map_at 0 (fold_left count_word ws m) w
  = map_at 0 m w + (if (1 <? String.length w)%nat
                    then count_occ string_dec ws w else 0) /\
  (NoDup (map fst m) -> NoDup (map fst (fold_left count_word ws m))) /\
  (In w (map fst (fold_left count_word ws m))
   <-> (In w ws /\ 1 < String.length w) \/ In w (map fst m)).
Proof.
  revert m. induction ws as [|x ws IH]; intros m; simpl.
  - split; [destruct (1 <? _)%nat; lia|]. split; [auto|tauto].
  - destruct (IH (count_word m x)) as (H1 & H2 & H3). split; [|split].
    + rewrite H1, count_word_at.
      destruct (1 <? String.length w)%nat; [|lia].
      destruct (string_dec x w); lia.
    + intros H. apply H2. now apply count_word_NoDup.
    + rewrite H3, count_word_keys. intuition; subst; auto.
Qed.

(** The word counts hold, for every word of more than one byte, the
    number of its occurrences among the fields, each word once. *)
Lemma count_words_spec (contents : list string) (w : string) :
  map_at 0 (count_words Fields contents) w
  = (if (1 <? String.length w)%nat then occurrences Fields contents w else 0) /\
  NoDup (map fst (count_words Fields contents)) /\
  (In w (map fst (count_words Fields contents))
   <-> In w (flat_map Fields contents) /\ 1 < String.length w).
Proof.
  unfold count_words, occurrences.
  assert (forall m,
    map_at 0 (fold_left (fun wordCount content =>
                 fold_left count_word (Fields content) wordCount) contents m) w
    = map_at 0 m w + (if (1 <? String.length w)%nat
                      then count_occ string_dec (flat_map Fields contents) w else 0) /\
    (NoDup (map fst m) ->
     NoDup (map fst (fold_left (fun wordCount content =>
                 fold_left count_word (Fields content) wordCount) contents m))) /\
    (In w (map fst (fold_left (fun wordCount content =>
                 fold_left count_word (Fields content) wordCount) contents m))
     <-> (In w (flat_map Fields contents) /\ 1 < String.length w)
         \/ In w (map fst m))) as G.
  { induction contents as [|content contents IH]; intros m; simpl.
    - split; [destruct (1 <? _)%nat; lia|]. split; [auto|tauto].
    - destruct (IH (fold_left count_word (Fields content) m)) as (H1 & H2 & H3).
      destruct (fold_count_word (Fields content) m w) as (F1 & F2 & F3).
      split; [|split].
      + rewrite H1, F1, count_occ_app. destruct (1 <? _)%nat; lia.
      + auto.
      + rewrite H3, F3, in_app_iff. tauto. }
  destruct (G []) as (G1 & G2 & G3). split; [|split].
  - rewrite G1. reflexivity.
  - apply G2. constructor.
  - rewrite G3. simpl. tauto.
Qed.

Lemma collect_keywords_filter (entries : gomap nat) :
  collect_keywords entries = map fst (filter is_keyword entries).
Proof.
  unfold collect_keywords.
  assert (forall acc,
    fold_left (fun keywords entry =>
       let '(word, count) := entry in
       if (3 <=? count)%nat && (1 <? String.length word)%nat
       then keywords ++ [word] else keywords) entries acc
    = acc ++ map fst (filter is_keyword entries)) as G.
  { induction entries as [|[word count] entries IH]; intros acc;
      cbn [fold_left filter].
    - now rewrite app_nil_r.
    - rewrite IH.
      change (is_keyword (word, count))
        with ((3 <=? count)%nat && (1 <? String.length word)%nat).
      destruct ((3 <=? count)%nat && (1 <? String.length word)%nat);
        cbn [map fst]; [now rewrite <- app_assoc|reflexivity]. }
  apply (G []).
Qed.

Lemma Permutation_filter {A} (f : A -> bool) (l l' : list A) :
  Permutation l l' -> Permutation (filter f l) (filter f l').
Proof.
  induction 1 as [|x l l' _ IH|x y l|l l' l'' _ IH1 _ IH2]; simpl.
  - constructor.
  - destruct (f x); [now constructor|exact IH].
  - destruct (f x), (f y); try reflexivity. constructor.
  - now transitivity (filter f l').
Qed.

(** The entries that pass the keyword test are the frequent words. *)
Lemma keyword_entries (contents : list string) :
  Permutation (map fst (filter is_keyword (count_words Fields contents)))
    (frequent_words Fields contents).
Proof.
  apply NoDup_Permutation.
  - destruct (count_words_spec contents "") as (_ & Hnd & _).
    assert (forall (m : gomap nat), NoDup (map fst m) ->
              NoDup (map fst (filter is_keyword m))) as G.
    { induction m as [|[k v] m IH]; simpl; intros H; [constructor|].
      inversion H as [|? ? Hk Hm]; subst.
      destruct (is_keyword (k, v)); simpl; [|auto].
      constructor; [|auto]. intros Hin. apply Hk.
      apply in_map_iff in Hin as ([k' v'] & <- & Hin).
      apply filter_In in Hin as [Hin _]. now apply (in_map fst) in Hin. }
    now apply G.
  - unfold frequent_words. apply NoDup_filter, NoDup_nodup.
  - intros w. unfold frequent_words.
    rewrite filter_In, nodup_In, filter_In, in_map_iff.
    destruct (count_words_spec contents w) as (Hat & Hnd & Hkeys).
    split.
    + intros ([w' c] & Hw & Hin). simpl in Hw. subst w'.
      apply filter_In in Hin as [Hin Hkw].
      unfold is_keyword in Hkw. simpl in Hkw. apply andb_prop in Hkw as [Hc Hl].
      assert (In w (map fst (count_words Fields contents))) as Hk.
      { now apply (in_map fst) in Hin. }
      apply Hkeys in Hk as [Hf _].
      apply (map_get_In _ _ _ _ Hnd) in Hin.
      unfold map_at in Hat. rewrite Hin, Hl in Hat. subst c.
      repeat split; assumption.
    + intros [[Hf Hl] Hc].
      assert (In w (map fst (count_words Fields contents))) as Hk.
      { apply Hkeys. split; [exact Hf|]. now apply Nat.ltb_lt. }
      apply map_get_key in Hk as [c Hget].
      exists (w, c). split; [reflexivity|].
      apply filter_In. split; [now apply (map_get_In _ _ _ _ Hnd)|].
      unfold is_keyword. cbn [fst snd]. rewrite Hl in *.
      unfold map_at in Hat. rewrite Hget in Hat. subst c.
      unfold occurrences. now rewrite Hc.
Qed.

End TopicFacts.

(** ** What the analysis helpers guarantee *)

Lemma quotes_at_most_ten (messages : list string) :
  List.length (extractGoldenQuotes messages) <= 10.
Proof.
  unfold extractGoldenQuotes.
  destruct (Nat.ltb_spec 10 (List.length
    (if (List.length (pick_marked 0 messages []) <? 10)%nat
     then pick_long 0 messages (pick_marked 0 messages [])
     else pick_marked 0 messages []))); [|assumption].
  rewrite length_firstn. lia.
Qed.

(** What holds of every quote made from a message of more than 15
    bytes at its position holds of all the quotes returned. *)
Lemma quotes_all (P : quote -> Prop) (messages : list string) :
  (forall j msg, nth_error messages j = Some msg ->
                 15 < String.length msg -> P (new_quote j msg)) ->
  Forall P (extractGoldenQuotes messages).
Proof.
  intros Hnew.
  assert (Forall P (pick_marked 0 messages [])) as H1.
  { apply QuotesFacts.pick_marked_all; [|constructor].
    intros j msg Hj He. apply (Hnew j msg Hj).
    unfold eligible in He. apply andb_prop in He as [He _].
    apply andb_prop in He as [He _]. now apply Nat.ltb_lt. }
  assert (Forall P (pick_long 0 messages (pick_marked 0 messages []))) as H2.
  { apply QuotesFacts.pick_long_all; [|exact H1].
    intros j msg Hj Hl. apply (Hnew j msg Hj). lia. }
  unfold extractGoldenQuotes.
  assert (forall l : list quote, Forall P l ->
            Forall P (if (10 <? List.length l)%nat then firstn 10 l else l)) as Hcut.
  { intros l Hl. destruct (10 <? List.length l)%nat; [|exact Hl].
    apply Forall_forall. intros q Hq. apply QuotesFacts.In_firstn in Hq.
    exact (proj1 (Forall_forall _ _) Hl q Hq). }
  apply Hcut. now destruct (List.length (pick_marked 0 messages []) <? 10)%nat.
Qed.

(** [extractGoldenQuotes] returns at most ten quotes, and each points
    back at a message: its index, counted from one, is the position of a
    message with that content, its length is the byte length of the
    content, and that length exceeds 15. *)
Theorem extractGoldenQuotes_sound (messages : list string) :
  List.length (extractGoldenQuotes messages) <= 10 /\
  Forall (fun q =>
            nth_error messages (quote_index q - 1) = Some (quote_content q) /\
            1 <= quote_index q <= List.length messages /\
            quote_length q = String.length (quote_content q) /\
            15 < quote_length q)
    (extractGoldenQuotes messages).
Proof.
  split; [apply quotes_at_most_ten|].
  apply quotes_all. intros j msg Hj Hlen.
  unfold new_quote. cbn [quote_index quote_content quote_length].
  replace (j + 1 - 1) with j by lia.
  assert (j < List.length messages) by (apply nth_error_Some; congruence).
  repeat split; auto; lia.
Qed.

(** The marked messages come first: the result of
    [extractGoldenQuotes] starts with the first ten marked messages of
    more than 15 and fewer than 200 bytes, in their order; quotes chosen
    for their length alone (more than 30 bytes) only follow them, and
    there are none when ten or more messages are marked. *)
Theorem extractGoldenQuotes_marked_first (messages : list string) :
  exists ext,
    extractGoldenQuotes messages = firstn 10 (marked_quotes messages) ++ ext /\
    Forall (fun q => 30 < quote_length q) ext /\
    (10 <= List.length (marked_quotes messages) -> ext = []).
Proof.
  destruct (QuotesFacts.extractGoldenQuotes_eq messages) as (ext & E & Hext & _ & Hfull).
  exists (firstn (10 - List.length (marked_quotes messages)) ext).
  rewrite E, firstn_app. split; [reflexivity|]. split.
  - apply Forall_forall. intros q Hq. apply QuotesFacts.In_firstn in Hq.
    exact (proj1 (Forall_forall _ _) Hext q Hq).
  - intros H. rewrite (Hfull H). now destruct (10 - _).
Qed.

(** When [extractGoldenQuotes] returns fewer than ten quotes, it has
    left out no long message: every message of more than 30 bytes is
    the content of one of the quotes. *)
Theorem extractGoldenQuotes_complete (messages : list string) :
  List.length (extractGoldenQuotes messages) < 10 ->
  forall msg, In msg messages -> 30 < String.length msg ->
    In msg (map quote_content (extractGoldenQuotes messages)).
Proof.
  intros Hlen msg Hin Hlong.
  destruct (QuotesFacts.extractGoldenQuotes_eq messages) as (ext & E & _ & Hrun & _).
  rewrite E in *. rewrite length_firstn in Hlen.
  rewrite firstn_all2 by lia.
  rewrite length_app in Hlen.
  rewrite Hrun by lia.
  apply QuotesFacts.pick_long_complete; try assumption.
  rewrite <- Hrun by lia. rewrite length_app. lia.
Qed.

(** The second loop of [extractGoldenQuotes] never repeats a content:
    when the marked messages it starts from are pairwise different, so
    are the contents of all the quotes returned. *)
Theorem extractGoldenQuotes_NoDup (messages : list string) :
  NoDup (map quote_content (marked_quotes messages)) ->
  NoDup (map quote_content (extractGoldenQuotes messages)).
Proof.
  intros H.
  destruct (QuotesFacts.extractGoldenQuotes_eq messages) as (ext & E & _ & Hrun & Hfull).
  rewrite E. rewrite <- firstn_map. apply QuotesFacts.NoDup_firstn.
  destruct (Nat.lt_ge_cases (List.length (marked_quotes messages)) 10) as [Hlt|Hge].
  - rewrite (Hrun Hlt). now apply QuotesFacts.pick_long_NoDup.
  - rewrite (Hfull Hge), app_nil_r. exact H.
Qed.

(** The keywords of [generateTopicSummary], whatever the order in which
    the word counts are ranged over: at most ten, pairwise different,
    each a field of more than one byte that occurs at least three times
    in the contents; and when at most ten words qualify, the keywords
    are all of them. *)
Theorem generateTopicSummary_keywords (Fields : string -> list string)
    (range_order : gomap nat -> gomap nat) (contents : list string) :
  (forall m, Permutation (range_order m) m) ->
  let kws := keywords (generateTopicSummary Fields range_order contents) in
  List.length kws <= 10 /\
  NoDup kws /\
  (forall w, In w kws ->
     1 < String.length w /\ 3 <= occurrences Fields contents w) /\
  (List.length (frequent_words Fields contents) <= 10 ->
   Permutation kws (frequent_words Fields contents)).
Proof.
  intros Hperm kws. subst kws. unfold generateTopicSummary. cbn [keywords].
  rewrite collect_keywords_filter.
  set (full := map fst (filter is_keyword (range_order (count_words Fields contents)))).
  assert (Permutation full (frequent_words Fields contents)) as Hfull.
  { unfold full.
    apply (Permutation_trans
             (l' := map fst (filter is_keyword (count_words Fields contents))));
      [|apply keyword_entries].
    apply Permutation_map. apply Permutation_filter. apply Hperm. }
  assert (NoDup full) as Hnd.
  { apply (Permutation_NoDup (Permutation_sym Hfull)).
    unfold frequent_words. apply NoDup_filter, NoDup_nodup. }
  assert (forall w, In w full ->
            1 < String.length w /\ 3 <= occurrences Fields contents w) as Hin.
  { intros w Hw. apply (Permutation_in _ Hfull) in Hw.
    unfold frequent_words in Hw. apply filter_In in Hw as [Hw Hc].
    apply nodup_In, filter_In in Hw as [_ Hl].
    split; [now apply Nat.ltb_lt|]. now apply Nat.leb_le. }
  destruct (Nat.ltb_spec 10 (List.length full)) as [Hlt|Hle].
  - split; [rewrite length_firstn; lia|].
    split; [now apply QuotesFacts.NoDup_firstn|].
    split; [intros w Hw; apply Hin; eapply QuotesFacts.In_firstn, Hw|].
    intros H. rewrite (Permutation_length Hfull) in Hlt. lia.
  - repeat split; auto; apply Hin; assumption.
Qed.

(** The topics of [generateTopicSummary] do not depend on the order in
    which the word counts are ranged over: none for no contents;
    otherwise the everyday topic, then the hot topic exactly when more
    than five distinct words of more than one byte occur at least three
    times, then the active group exactly when there are more than a
    hundred contents. *)
Theorem generateTopicSummary_topics (Fields : string -> list string)
    (range_order : gomap nat -> gomap nat) (contents : list string) :
  (forall m, Permutation (range_order m) m) ->
  topics (generateTopicSummary Fields range_order contents)
  = match contents with
    | [] => []
    | _ :: _ =>
        ["日常交流"]
        ++ (if (5 <? List.length (frequent_words Fields contents))%nat
            then ["热门话题讨论"] else [])
        ++ (if (100 <? List.length contents)%nat then ["活跃群聊"] else [])
    end.
Proof.
  intros Hperm. unfold generateTopicSummary. cbn [topics].
  rewrite collect_keywords_filter.
  set (full := map fst (filter is_keyword (range_order (count_words Fields contents)))).
  assert (List.length full = List.length (frequent_words Fields contents)) as Hlen.
  { apply Permutation_length. unfold full.
    apply (Permutation_trans
             (l' := map fst (filter is_keyword (count_words Fields contents))));
      [|apply keyword_entries].
    apply Permutation_map. apply Permutation_filter. apply Hperm. }
  assert ((5 <? List.length (if (10 <? List.length full)%nat
                             then firstn 10 full else full))%nat
          = (5 <? List.length (frequent_words Fields contents))%nat) as ->.
  { rewrite <- Hlen. destruct (Nat.ltb_spec 10 (List.length full)); [|reflexivity].
    rewrite length_firstn.
    destruct (Nat.ltb_spec 5 (Nat.min 10 (List.length full))),
             (Nat.ltb_spec 5 (List.length full)); lia || reflexivity. }
  destruct contents as [|content contents]; [reflexivity|].
  change (0 <? List.length (content :: contents))%nat with true. cbv iota.
  destruct (5 <? List.length (frequent_words Fields (content :: contents)))%nat,
           (100 <? List.length (content :: contents))%nat; reflexivity.
Qed.

(** More messages never lower the level of [getActivityLevel]: the
    level of a larger count is the same or a more active one, and the
    level is always one of the five. *)
Theorem getActivityLevel_monotone (n m : Z) :
  (n <= m)%Z ->
  position activity_levels (getActivityLevel n)
  <= position activity_levels (getActivityLevel m) /\
  In (getActivityLevel n) activity_levels.
Proof.
  intros H. unfold getActivityLevel.
  destruct (Z.leb_spec 100 n), (Z.leb_spec 50 n), (Z.leb_spec 20 n),
           (Z.leb_spec 10 n), (Z.leb_spec 100 m), (Z.leb_spec 50 m),
           (Z.leb_spec 20 m), (Z.leb_spec 10 m);
    try lia; (split; [vm_compute; lia|simpl; tauto]).
Qed.

Lemma extractGoldenQuotes_complete_witness :
  In "0123456789012345678901234567890123456789"
    (map quote_content
       (extractGoldenQuotes ["short"; "0123456789012345678901234567890123456789"])).
Proof.
  apply (extractGoldenQuotes_complete
           ["short"; "0123456789012345678901234567890123456789"]).
  - vm_compute. lia.
  - simpl. auto.
  - vm_compute. lia.
Defined.

Lemma extractGoldenQuotes_NoDup_witness :
  NoDup (map quote_content
           (extractGoldenQuotes
              ["0123456789012345678901234567890123456789";
               "0123456789012345678901234567890123456789"])).
Proof.
  apply (extractGoldenQuotes_NoDup
           ["0123456789012345678901234567890123456789";
            "0123456789012345678901234567890123456789"]).
  vm_compute. constructor.
Defined.

Lemma generateTopicSummary_keywords_witness :
  NoDup (keywords (generateTopicSummary Demo.fields (@rev _)
                     ["go go go rust"; "rust rust a a a"])).
Proof.
  refine (proj1 (proj2 (generateTopicSummary_keywords Demo.fields (@rev _)
                          ["go go go rust"; "rust rust a a a"] _))).
  intros m. apply Permutation_sym, Permutation_rev.
Defined.

Lemma generateTopicSummary_topics_witness :
  topics (generateTopicSummary Demo.fields (@rev _)
            ["go go go rust"; "rust rust a a a"])
  = ["日常交流"].
Proof.
  rewrite (generateTopicSummary_topics Demo.fields (@rev _)
             ["go go go rust"; "rust rust a a a"]).
  - reflexivity.
  - intros m. apply Permutation_sym, Permutation_rev.
Defined.

Lemma getActivityLevel_monotone_witness :
  position activity_levels (getActivityLevel 9)
  <= position activity_levels (getActivityLevel 50).
Proof.
  refine (proj1 (getActivityLevel_monotone 9 50 _)). lia.
Defined.

(** ** Grouping *)

Section GroupFacts.

Variables A B : Type.
Variable key : B -> string.
Variable f : B -> A.
Variable keep : B -> bool.

Lemma group_append_at (g : gomap (list A)) (k k' : string) (x : A) :
  map_at [] (group_append g k x) k'
  = if k =? k' then map_at [] g k ++ [x] else map_at [] g k'.
Proof.
  unfold group_append, map_at at 1.
  destruct (String.eqb_spec k k') as [<-|Hne].
  - now rewrite map_get_set_same.
  - now rewrite map_get_set_other.
Qed.

Lemma group_append_total (g : gomap (list A)) (k : string) (x : A) :
  group_total (group_append g k x) = S (group_total g).
Proof.
  unfold group_append, group_total, map_at.
  induction g as [|[k0 v0] g IH]; [reflexivity|].
  cbn [map_get map_set].
  destruct (String.eqb_spec k0 k) as [->|Hne].
  - cbn [map list_sum fold_right snd]. rewrite length_app. simpl. lia.
  - cbn [map list_sum fold_right snd]. unfold list_sum in IH. rewrite IH. lia.
Qed.

Lemma grouping_spec (l : list B) (g0 : gomap (list A)) :
  let grouping := grouping key f keep in
  (forall k, map_at [] (grouping l g0) k
             = map_at [] g0 k
               ++ map f (filter (fun x => keep x && (key x =? k)) l)) /\
  (NoDup (map fst g0) -> NoDup (map fst (grouping l g0))) /\
  (forall k, In k (map fst (grouping l g0))
             <-> In k (map fst g0) \/ In k (map key (filter keep l))) /\
  group_total (grouping l g0) = group_total g0 + List.length (filter keep l).
Proof.
  cbv zeta. unfold grouping. revert g0.
  induction l as [|x l IH]; intros g0; cbn [fold_left filter].
  - split; [intros k; now rewrite app_nil_r|]. split; [auto|].
    split; [intros k; simpl; tauto|simpl; lia].
  - destruct (keep x) eqn:Hx; cbn [andb].
    + destruct (IH (group_append g0 (key x) (f x))) as (H1 & H2 & H3 & H4).
      split; [|split; [|split]].
      * intros k. rewrite H1, group_append_at.
        destruct (String.eqb_spec (key x) k) as [<-|Hne]; cbn [map];
          [now rewrite <- app_assoc|reflexivity].
      * intros H. apply H2. now apply map_set_NoDup.
      * intros k. rewrite H3. unfold group_append. rewrite map_set_keys.
        cbn [map In]. intuition.
      * rewrite H4, group_append_total. simpl. lia.
    + apply IH.
Qed.

(** The groups of a grouping from the empty map: as many as there are
    different keys, each holding its elements in their order. *)
Lemma grouping_groups (l : list B) :
  let g := grouping key f keep l [] in
  List.length g = List.length (nodup string_dec (map key (filter keep l))) /\
  NoDup (map fst g) /\
  (forall k, In k (map fst g) <-> In k (map key (filter keep l))) /\
  (forall k v, map_get g k = Some v ->
               v = map f (filter (fun x => keep x && (key x =? k)) l) /\ v <> []) /\
  group_total g = List.length (filter keep l).
Proof.
  intros g. destruct (grouping_spec l []) as (H1 & H2 & H3 & H4). fold g in H1, H2, H3, H4.
  specialize (H2 (NoDup_nil _)).
  assert (forall k, In k (map fst g) <-> In k (map key (filter keep l))) as H3'.
  { intros k. rewrite H3. simpl. tauto. }
  split; [|split; [exact H2|split; [exact H3'|split; [|exact H4]]]].
  - rewrite <- (length_map fst). apply Permutation_length.
    apply NoDup_Permutation; [exact H2|apply NoDup_nodup|].
    intros k. rewrite H3', nodup_In. tauto.
  - intros k v Hget.
    specialize (H1 k). unfold map_at in H1. rewrite Hget in H1. simpl in H1.
    split; [exact H1|].
    assert (In k (map key (filter keep l))) as Hk.
    { apply H3'. apply map_get_key. eauto. }
    apply in_map_iff in Hk as (x & Hx & Hin).
    apply filter_In in Hin as [Hin Hkeep].
    intros ->. symmetry in H1. apply map_eq_nil in H1.
    assert (In x (filter (fun x => keep x && (key x =? k)) l)) as Hf.
    { apply filter_In. split; [exact Hin|]. rewrite Hkeep, Hx. apply String.eqb_refl. }
    now rewrite H1 in Hf.
Qed.

End GroupFacts.

(** ** The analysis handlers *)

(** ** The rows of the CSV outputs *)

Module RowFacts.
Import Strings StringsFacts.

Lemma free_of_app (c : ascii) (a b : string) :
  free_of c (a +++ b) = free_of c a && free_of c b.
Proof.
  induction a as [|d a IH]; simpl; [reflexivity|]. now rewrite IH, andb_assoc.
Qed.

Lemma count_byte_app (c : ascii) (a b : string) :
  count_byte c (a +++ b) = count_byte c a + count_byte c b.
Proof.
  induction a as [|d a IH]; simpl; [reflexivity|]. now rewrite IH, Nat.add_assoc.
Qed.

Lemma count_byte_free (c : ascii) (s : string) :
  free_of c s = true <-> count_byte c s = 0.
Proof.
  induction s as [|d s IH]; simpl; [tauto|].
  destruct (Ascii.eqb d c); simpl; [split; discriminate|exact IH].
Qed.

Lemma Split_length (c : ascii) (s : string) :
  List.length (Split c s) = S (count_byte c s).
Proof.
  induction s as [|d s IH]; simpl; [reflexivity|].
  destruct (Ascii.eqb d c); simpl; [now rewrite IH|].
  destruct (Split_cons c s) as (x & xs & E). rewrite E in *. exact IH.
Qed.

Lemma length_app (a b : string) :
  String.length (a +++ b) = String.length a + String.length b.
Proof. induction a as [|d a IH]; simpl; [reflexivity|now rewrite IH]. Qed.

Lemma prefix_byte (c d : ascii) (t : string) :
  String.prefix (String c "") (String d t) = Ascii.eqb d c.
Proof.
  change (String.prefix (String c "") (String d t))
    with (if Ascii.ascii_dec c d then String.prefix "" t else false).
  destruct (Ascii.ascii_dec c d) as [<-|Hn].
  - now rewrite prefix_empty, Ascii.eqb_refl.
  - symmetry. apply Ascii.eqb_neq. congruence.
Qed.

(** Replacing a byte: the scan never skips. *)
Lemma replace_byte_cons (c d : ascii) (new s : string) :
  replace_scan (String c "") new 0 (String d s)
  = if Ascii.eqb d c then new +++ replace_scan (String c "") new 0 s
    else String d (replace_scan (String c "") new 0 s).
Proof.
  cbn [replace_scan]. unfold HasPrefix. rewrite prefix_byte. reflexivity.
Qed.

Lemma replace_byte_free (c : ascii) (new s : string) :
  free_of c new = true ->
  free_of c (replace_scan (String c "") new 0 s) = true.
Proof.
  intros Hnew. induction s as [|d s IH]; [reflexivity|].
  rewrite replace_byte_cons. destruct (Ascii.eqb d c) eqn:E.
  - now rewrite free_of_app, Hnew, IH.
  - cbn [free_of]. now rewrite E, IH.
Qed.

Lemma replace_byte_length (c : ascii) (new s : string) :
  String.length (replace_scan (String c "") new 0 s) + count_byte c s
  = String.length s + String.length new * count_byte c s.
Proof.
  induction s as [|d s IH]; [simpl; lia|].
  rewrite replace_byte_cons. cbn [count_byte String.length].
  destruct (Ascii.eqb d c).
  - rewrite length_app. lia.
  - cbn [String.length]. lia.
Qed.

Lemma replace_byte_id (c : ascii) (new s : string) :
  free_of c s = true -> replace_scan (String c "") new 0 s = s.
Proof.
  induction s as [|d s IH]; [reflexivity|]. cbn [free_of]. intros H.
  apply andb_prop in H as [Hd Hs]. apply negb_true_iff in Hd.
  now rewrite replace_byte_cons, Hd, IH.
Qed.

Lemma uint_no_line_feed (d : Decimal.uint) :
  count_byte (ascii_of_nat 10) (NilEmpty.string_of_uint d) = 0.
Proof. induction d; simpl; auto. Qed.

Lemma Itoa_no_line_feed (n : Z) : count_byte (ascii_of_nat 10) (Itoa n) = 0.
Proof.
  unfold Itoa, NilZero.string_of_int, NilZero.string_of_uint.
  destruct (Z.to_int n) as [d|d]; destruct d; try reflexivity;
    cbn [count_byte]; try (rewrite <- uint_no_line_feed at 2; reflexivity);
    apply uint_no_line_feed.
Qed.

End RowFacts.

(** A row of the contacts is never quoted or escaped: split at the
    commas it has four columns and as many more as its fields hold
    commas, so the columns are the four fields (the last with the line
    feed that ends the row) exactly when no field holds a comma. *)
Theorem contact_row_columns (contact : Contact) :
  let fields := [Contact_UserName contact; Contact_Alias contact;
                 Contact_Remark contact; Contact_NickName contact] in
  List.length (Strings.Split "," (contact_row contact))
  = 4 + list_sum (map (Strings.count_byte ",") fields) /\
  (Strings.Split "," (contact_row contact)
   = [Contact_UserName contact; Contact_Alias contact;
      Contact_Remark contact; Contact_NickName contact +++ LF]
   <-> Forall (fun field => Strings.free_of "," field = true) fields).
Proof.
  intros fields. unfold fields, contact_row.
  destruct contact as [u a r n]. cbn [Contact_UserName Contact_Alias Contact_Remark Contact_NickName].
  split.
  - rewrite RowFacts.Split_length, !RowFacts.count_byte_app.
    cbn [map list_sum fold_right]. change (Strings.count_byte "," ",") with 1.
    change (Strings.count_byte "," LF) with 0. lia.
  - assert (u +++ "," +++ a +++ "," +++ r +++ "," +++ n +++ LF
            = String.concat "," [u; a; r; n +++ LF]) as -> by reflexivity.
    split.
    + intros E.
      pose proof (StringsFacts.Split_all_free ","
                    (String.concat "," [u; a; r; n +++ LF])) as H.
      rewrite E in H.
      inversion H as [|? ? Hu H1]; subst. inversion H1 as [|? ? Ha H2]; subst.
      inversion H2 as [|? ? Hr H3]; subst. inversion H3 as [|? ? Hn _]; subst.
      rewrite RowFacts.free_of_app in Hn. apply andb_prop in Hn as [Hn _].
      repeat constructor; assumption.
    + intros H.
      inversion H as [|? ? Hu H1]; subst. inversion H1 as [|? ? Ha H2]; subst.
      inversion H2 as [|? ? Hr H3]; subst. inversion H3 as [|? ? Hn _]; subst.
      apply StringsFacts.Split_concat; [discriminate|].
      repeat constructor; try assumption.
      now rewrite RowFacts.free_of_app, Hn.
Qed.

(** ** The handlers of the API *)

Section ApiFacts.

Variable Time : Type.
Variable api : Api Time.

Lemma quotable_filter (messages : list (Message Time)) :
  quotable messages
  = map Message_Content
      (filter (fun msg =>
                 (Message_Type msg =? 1)%Z && negb (Message_Content msg =? "")
                 && (10 <? String.length (Message_Content msg))%nat)
         messages).
Proof.
  unfold quotable.
  assert (forall acc,
    fold_left
      (fun textMessages (msg : Message Time) =>
         if (Message_Type msg =? 1)%Z && negb (Message_Content msg =? "")
            && (10 <? String.length (Message_Content msg))%nat
         then textMessages ++ [Message_Content msg] else textMessages)
      messages acc
    = acc ++ map Message_Content
               (filter (fun msg =>
                  (Message_Type msg =? 1)%Z && negb (Message_Content msg =? "")
                  && (10 <? String.length (Message_Content msg))%nat)
                  messages)) as G.
  { induction messages as [|msg messages IH]; intros acc; cbn [fold_left filter].
    - now rewrite app_nil_r.
    - rewrite IH.
      destruct ((Message_Type msg =? 1)%Z && negb (Message_Content msg =? "")
                && (10 <? String.length (Message_Content msg))%nat);
        cbn [map]; [now rewrite <- app_assoc|reflexivity]. }
  apply (G []).
Qed.

(** Entries ranged over with each key once are all assigned. *)
Lemma summaries_fold {A B : Type} (F : A -> B) (l : gomap A) (d0 : gomap B) :
  NoDup (map fst l) ->
  (forall k, In k (map fst l) -> ~ In k (map fst d0)) ->
  fold_left (fun daily entry => let '(groupName, contents) := entry in
                                map_set daily groupName (F contents)) l d0
  = d0 ++ map (fun entry => (fst entry, F (snd entry))) l.
Proof.
  assert (forall (d : gomap B) k v, ~ In k (map fst d) -> map_set d k v = d ++ [(k, v)])
    as Hset.
  { induction d as [|[k0 v0] d IH]; intros k v Hk; simpl; [reflexivity|].
    destruct (String.eqb_spec k0 k) as [->|Hne].
    - exfalso. apply Hk. now left.
    - rewrite IH; [reflexivity|]. intros H. apply Hk. now right. }
  revert d0. induction l as [|[k c] l IH]; intros d0 Hnd Hdis; cbn [fold_left map].
  - now rewrite app_nil_r.
  - inversion Hnd as [|? ? Hk Hl]; subst.
    rewrite Hset by (apply Hdis; now left).
    rewrite IH; [now rewrite <- app_assoc| exact Hl |].
    intros k' Hk' Hin. rewrite map_app in Hin. apply in_app_or in Hin as [Hin|[<-|[]]].
    + apply (Hdis k'); [now right|exact Hin].
    + contradiction.
Qed.

Lemma topics_head (contents : list string) :
  contents <> [] ->
  hd_error (topics (generateTopicSummary (strings_Fields api)
                      (word_range_order api) contents))
  = Some "日常交流".
Proof.
  intros H. unfold generateTopicSummary. cbn [topics].
  destruct contents as [|content contents]; [contradiction|].
  change (0 <? List.length (content :: contents))%nat with true. cbv iota.
  destruct (5 <? _)%nat, (100 <? _)%nat; reflexivity.
Qed.

(** [DownloadAnalysisFile] serves a file exactly when the [file]
    parameter is not empty and [os.Stat] does not report it missing, and
    the file served is the parameter as it came: the name is not
    cleaned, not joined to any directory, and a [folder] parameter is
    never served. *)
Theorem DownloadAnalysisFile_serves (c : Request) (name : string) :
  In (File name) (DownloadAnalysisFile api c)
  <-> name = Request_Query c "file" /\ name <> "" /\
      Stat api name <> Some ErrNotExist.
Proof.
  unfold DownloadAnalysisFile.
  destruct (String.eqb_spec (Request_Query c "file") "") as [Hf|Hf]; cbn [negb].
  - split.
    + destruct (String.eqb_spec (Request_Query c "folder") ""); cbn [negb].
      * intros [H|[]]. discriminate.
      * destruct (IsNotExist _); intros [H|[H|[]]]; discriminate.
    + intros (-> & Hn & _). contradiction.
  - split.
    + intros [H|H]; [discriminate|].
      destruct (Stat api (Request_Query c "file")) as [[| |]|] eqn:E;
        cbn [IsNotExist] in H; destruct H as [H|[]]; try discriminate;
        injection H as <-; rewrite E; repeat split; auto; discriminate.
    + intros (-> & _ & Hs). right.
      destruct (Stat api (Request_Query c "file")) as [[| |]|];
        cbn [IsNotExist]; now left.
Qed.

(** [SearchMessages] never asks the store with an empty keyword, and
    otherwise asks once, for at most 1000 messages of the days before
    now: the number of days is always positive, the parsed [days]
    parameter when it parses to a positive number and 7 in every other
    case. *)
Theorem SearchMessages_window (c : Request) :
  let keyword := Request_Query c "keyword" in
  (keyword = "" ->
   SearchMessages api c
   = [JSON StatusBadRequest (J_H [("error", "Keyword is required")])]) /\
  (keyword <> "" ->
   exists d rest,
     SearchMessages api c
     = db_GetMessages_call (AddDate api (Now api 0) 0 0 (- d)) (Now api 0)
         "" "" keyword 1000 0 :: rest /\
     (forall start end_ talker sender kw limit offset,
        ~ In (db_GetMessages_call start end_ talker sender kw limit offset) rest) /\
     (0 < d)%Z /\
     (Atoi api (DefaultQuery c "days" "7") = Ok d \/ d = 7%Z) /\
     (forall d', Atoi api (DefaultQuery c "days" "7") = Ok d' -> (0 < d')%Z -> d = d')).
Proof.
  intros keyword. unfold SearchMessages. fold keyword. split.
  - intros ->. reflexivity.
  - intros Hk. apply String.eqb_neq in Hk. rewrite Hk.
    exists (days_or api (DefaultQuery c "days" "7") 7). eexists.
    split; [reflexivity|]. split.
    + intros start end_ talker sender kw limit offset.
      destruct (db_GetMessages api _ _ "" "" keyword 1000 0);
        intros [H|[]]; discriminate.
    + unfold days_or.
      destruct (Atoi api (DefaultQuery c "days" "7")) as [d|err].
      * destruct (Z.ltb_spec 0 d).
        -- repeat split; auto. now intros d' [= <-].
        -- repeat split; auto; try lia. intros d' [= <-]. lia.
      * repeat split; auto; try lia. discriminate.
Qed.

(** The groups of [SearchMessages]: every message found is in exactly
    one group, that of its talker (or the group of unknown talkers when
    it has none); each group holds its messages in the order of the
    store's answer, no group is empty, and together the groups hold as
    many messages as [total_messages] says. *)
Theorem SearchMessages_groups (c : Request) (messages : list (Message Time)) :
  let keyword := Request_Query c "keyword" in
  let end_ := Now api 0 in
  let start := AddDate api end_ 0 0 (- days_or api (DefaultQuery c "days" "7") 7) in
  keyword <> "" ->
  db_GetMessages api start end_ "" "" keyword 1000 0 = Ok messages ->
  exists r,
    SearchMessages api c
    = [db_GetMessages_call start end_ "" "" keyword 1000 0; JSON StatusOK (J_search r)] /\
    search_total_messages r = List.length messages /\
    group_total (grouped_results r) = search_total_messages r /\
    NoDup (map fst (grouped_results r)) /\
    (forall msg, In msg messages ->
       In (groupKey_of msg) (map fst (grouped_results r))) /\
    (forall k hits, map_get (grouped_results r) k = Some hits ->
       hits <> [] /\
       hits = map (fun msg =>
                     {| hit_content := Message_Content msg;
                        hit_time := Unix api (Message_Time msg);
                        hit_sender := Message_Sender msg;
                        hit_talker := Message_Talker msg;
                        hit_type := Message_Type msg |})
                (filter (fun msg => groupKey_of msg =? k) messages)).
Proof.
  intros keyword end_ start Hk Hdb. unfold SearchMessages.
  fold keyword. apply String.eqb_neq in Hk. rewrite Hk.
  fold end_. fold start. rewrite Hdb.
  eexists. split; [reflexivity|]. cbn [search_total_messages grouped_results].
  set (hit := fun msg : Message Time =>
                {| hit_content := Message_Content msg;
                   hit_time := Unix api (Message_Time msg);
                   hit_sender := Message_Sender msg;
                   hit_talker := Message_Talker msg;
                   hit_type := Message_Type msg |}).
  change (fold_left _ messages [])
    with (grouping (@groupKey_of Time) hit (fun _ => true) messages []).
  destruct (grouping_groups _ _ (@groupKey_of Time) hit (fun _ => true) messages)
    as (_ & Hnd & Hkeys & Hget & Htot).
  assert (filter (fun _ : Message Time => true) messages = messages) as Hall.
  { clear. induction messages as [|m l IH]; simpl; [reflexivity|now rewrite IH]. }
  rewrite Hall in *.
  split; [reflexivity|]. split; [exact Htot|]. split; [exact Hnd|]. split.
  - intros msg Hin. apply Hkeys. now apply in_map.
  - intros k hits H. destruct (Hget k hits H) as [-> Hne]. split; [exact Hne|reflexivity].
Qed.

(** The days of [GetChatroomHistory]: [total_days] is the number of
    different dates among the messages, never more than
    [total_messages]; each day holds its messages in the order of the
    store's answer, and together the days hold all of them. *)
Theorem GetChatroomHistory_days (c : Request) (messages : list (Message Time)) :
  let talker := Request_Query c "talker" in
  let end_ := Now api 0 in
  let start := AddDate api end_ 0 0 (- days_or api (DefaultQuery c "days" "30") 30) in
  let date_of := fun msg : Message Time => Format api (Message_Time msg) "2006-01-02" in
  talker <> "" ->
  db_GetMessages api start end_ talker "" "" 5000 0 = Ok messages ->
  exists r,
    GetChatroomHistory api c
    = [db_GetMessages_call start end_ talker "" "" 5000 0; JSON StatusOK (J_history r)] /\
    history_total_messages r = List.length messages /\
    total_days r = List.length (nodup string_dec (map date_of messages)) /\
    total_days r <= history_total_messages r /\
    group_total (daily_messages r) = history_total_messages r /\
    (forall date entries, map_get (daily_messages r) date = Some entries ->
       entries <> [] /\
       map entry_content entries
       = map Message_Content (filter (fun msg => date_of msg =? date) messages)).
Proof.
  intros talker end_ start date_of Hk Hdb. unfold GetChatroomHistory.
  fold talker. apply String.eqb_neq in Hk. rewrite Hk.
  fold end_. fold start. rewrite Hdb.
  eexists. split; [reflexivity|].
  cbn [history_total_messages total_days daily_messages].
  set (entry := fun msg : Message Time =>
                  {| entry_content := Message_Content msg;
                     entry_time := Unix api (Message_Time msg);
                     entry_sender := Message_Sender msg;
                     entry_type := Message_Type msg;
                     entry_hour := Hour api (Message_Time msg) |}).
  change (fold_left _ messages [])
    with (grouping date_of entry (fun _ => true) messages []).
  destruct (grouping_groups _ _ date_of entry (fun _ => true) messages)
    as (Hlen & Hnd & Hkeys & Hget & Htot).
  assert (filter (fun _ : Message Time => true) messages = messages) as Hall.
  { clear. induction messages as [|m l IH]; simpl; [reflexivity|now rewrite IH]. }
  rewrite Hall in *.
  split; [reflexivity|]. split; [exact Hlen|]. split; [|split; [exact Htot|]].
  - rewrite Hlen. rewrite <- (length_map date_of messages).
    apply NoDup_incl_length; [apply NoDup_nodup|].
    intros d Hd. now apply nodup_In in Hd.
  - intros date entries H. destruct (Hget date entries H) as [-> Hne].
    split; [exact Hne|]. rewrite map_map. reflexivity.
Qed.

(** The summaries of [GetDailySummary]: there is one for every group
    that has a non-empty text message (type 1) and for no other; its
    [message_count] is the number of such messages in the group, hence
    at least one, its topics start with the everyday topic and its level
    is that of the count.  [total_messages] counts every message of the
    day, so the counts of the groups add up to the text messages only,
    which may be fewer. *)
Theorem GetDailySummary_summaries (c : Request) (targetDate : Time)
    (messages : list (Message Time)) :
  let date := DefaultQuery c "date" (Format api (Now api 0) "2006-01-02") in
  let talker := Request_Query c "talker" in
  let end_ := AddDate api targetDate 0 0 1 in
  let is_text := fun msg : Message Time =>
    (Message_Type msg =? 1)%Z && negb (Message_Content msg =? "") in
  Parse api "2006-01-02" date = Ok targetDate ->
  db_GetMessages api targetDate end_ talker "" "" 10000 0 = Ok messages ->
  exists r,
    GetDailySummary api c
    = [db_GetMessages_call targetDate end_ talker "" "" 10000 0;
       JSON StatusOK (J_daily r)] /\
    daily_total_messages r = List.length messages /\
    total_groups r = List.length (summaries r) /\
    NoDup (map fst (summaries r)) /\
    (forall g, In g (map fst (summaries r))
               <-> exists msg, In msg messages /\ is_text msg = true /\
                               groupKey_of msg = g) /\
    (forall g sm, map_get (summaries r) g = Some sm ->
       1 <= message_count sm /\
       message_count sm
       = List.length (filter (fun msg => is_text msg && (groupKey_of msg =? g)) messages) /\
       hd_error (summary_topics sm) = Some "日常交流" /\
       activity_level sm = getActivityLevel (Z.of_nat (message_count sm))) /\
    list_sum (map (fun entry => message_count (snd entry)) (summaries r))
    = List.length (filter is_text messages) /\
    List.length (filter is_text messages) <= daily_total_messages r.
Proof.
  intros date talker end_ is_text Hparse Hdb. unfold GetDailySummary.
  fold date. fold talker. rewrite Hparse. fold end_. rewrite Hdb.
  eexists. split; [reflexivity|].
  cbn [daily_total_messages total_groups summaries].
  change (group_texts messages)
    with (grouping (@groupKey_of Time) (@Message_Content Time) is_text messages []).
  set (g := grouping (@groupKey_of Time) (@Message_Content Time) is_text messages []).
  destruct (grouping_groups _ _ (@groupKey_of Time) (@Message_Content Time)
              is_text messages) as (_ & Hnd & Hkeys & Hget & Htot).
  fold g in Hnd, Hkeys, Hget, Htot.
  rewrite (summaries_fold (summarize api) g []) by (auto; intros k _ []).
  cbn [app].
  set (sums := map (fun entry => (fst entry, summarize api (snd entry))) g).
  assert (map fst sums = map fst g) as Hfst.
  { unfold sums. rewrite map_map. reflexivity. }
  assert (forall k sm, map_get sums k = Some sm ->
            exists contents, map_get g k = Some contents /\ sm = summarize api contents)
    as Hsums.
  { unfold sums. clear. induction g as [|[k0 c0] g IH]; intros k sm; simpl; [discriminate|].
    destruct (k0 =? k); [intros [= <-]; eauto|apply IH]. }
  split; [reflexivity|]. split; [unfold sums; now rewrite length_map|].
  split; [now rewrite Hfst|]. split; [|split; [|split]].
  - intros k. rewrite Hfst, Hkeys, in_map_iff. split.
    + intros (msg & <- & Hin). apply filter_In in Hin as [Hin Ht]. eauto.
    + intros (msg & Hin & Ht & <-). exists msg. split; [reflexivity|].
      apply filter_In. auto.
  - intros k sm H. destruct (Hsums k sm H) as (contents & Hc & ->).
    destruct (Hget k contents Hc) as [E Hne].
    unfold summarize. cbn [message_count summary_topics activity_level].
    split; [destruct contents; [contradiction|simpl; lia]|].
    split; [now rewrite E, length_map|].
    split; [now apply topics_head|reflexivity].
  - rewrite <- Htot. unfold sums, group_total. rewrite map_map. reflexivity.
  - clear. induction messages as [|m l IH]; simpl; [lia|].
    destruct (is_text m); simpl; lia.
Qed.

(** The quotes of [GetGoldenQuotes]: at most ten, as many as
    [total_quotes] says, each with the content of a text message (type
    1) of the day that is longer than 15 bytes; the index of a quote
    counts positions among the text messages handed to
    [extractGoldenQuotes], not among all the messages of the day. *)
Theorem GetGoldenQuotes_quotes (c : Request) (targetDate : Time)
    (messages : list (Message Time)) :
  let date := DefaultQuery c "date" (Format api (Now api 0) "2006-01-02") in
  let talker := Request_Query c "talker" in
  let end_ := AddDate api targetDate 0 0 1 in
  Parse api "2006-01-02" date = Ok targetDate ->
  db_GetMessages api targetDate end_ talker "" "" 10000 0 = Ok messages ->
  exists r,
    GetGoldenQuotes api c
    = [db_GetMessages_call targetDate end_ talker "" "" 10000 0;
       JSON StatusOK (J_quotes r)] /\
    total_quotes r = List.length (quotes r) /\
    total_quotes r <= 10 /\
    Forall (fun q =>
              15 < String.length (quote_content q) /\
              nth_error (quotable messages) (quote_index q - 1)
              = Some (quote_content q) /\
              exists msg, In msg messages /\ Message_Type msg = 1%Z /\
                          Message_Content msg = quote_content q)
      (quotes r).
Proof.
  intros date talker end_ Hparse Hdb. unfold GetGoldenQuotes.
  fold date. fold talker. rewrite Hparse. fold end_. rewrite Hdb.
  eexists. split; [reflexivity|]. cbn [total_quotes quotes].
  split; [reflexivity|]. split; [apply quotes_at_most_ten|].
  apply quotes_all. intros j content Hnth H15.
  unfold new_quote. cbn [quote_index quote_content].
  replace (j + 1 - 1) with j by lia.
  split; [exact H15|]. split; [exact Hnth|].
  apply nth_error_In in Hnth. rewrite quotable_filter in Hnth.
  apply in_map_iff in Hnth as (msg & Hc & Hin).
  apply filter_In in Hin as [Hin Hcond].
  apply andb_prop in Hcond as [Hcond _]. apply andb_prop in Hcond as [Hty _].
  exists msg. repeat split; auto. now apply Z.eqb_eq.
Qed.

Lemma written_strings_app (t1 t2 : list (effect Time)) :
  written_strings (t1 ++ t2) = written_strings t1 ++ written_strings t2.
Proof. apply flat_map_app. Qed.

Lemma written_strings_rows (A : Type) (row : A -> string) (items : list A) :
  written_strings (Time := Time) (map (fun x => WriteString (row x)) items)
  = map row items.
Proof.
  induction items as [|x items IH]; [reflexivity|].
  cbn [map]. change (written_strings (?e :: ?t)) with (written_strings [e] ++ written_strings t).
  rewrite IH. reflexivity.
Qed.

Lemma clamp_max (n : Z) : (if (n <? 0)%Z then 0%Z else n) = Z.max 0 n.
Proof. destruct (Z.ltb_spec n 0); lia. Qed.

(** [GetChatlog] never hands a negative limit or offset to the store:
    whatever the query holds, a call to the store carries the limit and
    the offset of the query raised to zero, with the talker, sender and
    keyword of the query unchanged. *)
Theorem GetChatlog_limits (c : Request) (start end_ : Time)
    (talker sender keyword : string) (limit offset : Z) :
  In (db_GetMessages_call start end_ talker sender keyword limit offset)
     (GetChatlog api c) ->
  exists q,
    BindQuery_chatlog api c = Ok q /\
    limit = Z.max 0 (q_Limit q) /\ offset = Z.max 0 (q_Offset q) /\
    (0 <= limit)%Z /\ (0 <= offset)%Z /\
    talker = q_Talker q /\ sender = q_Sender q /\ keyword = q_Keyword q.
Proof.
  unfold GetChatlog. destruct (BindQuery_chatlog api c) as [q|err].
  - destruct (TimeRangeOf api (q_Time q)) as [[st en] ok].
    rewrite !clamp_max. intros Hin. exists q. split; [reflexivity|].
    apply in_app_or in Hin as [Hin|Hin].
    { destruct (negb ok); [destruct Hin as [H|[]]; discriminate|contradiction]. }
    destruct Hin as [Hin|Hin].
    + injection Hin as <- <- <- <- <- <- <-. repeat split; lia.
    + exfalso.
      destruct (db_GetMessages api st en _ _ _ _ _) as [messages|err].
      * destruct (_ =? "csv"); [contradiction|].
        destruct (_ =? "json"); [destruct Hin as [H|[]]; discriminate|].
        apply in_app_or in Hin as [Hin|Hin].
        -- simpl in Hin. intuition discriminate.
        -- apply in_flat_map in Hin as (m & _ & Hm). simpl in Hm.
           intuition discriminate.
      * destruct Hin as [H|[]]; discriminate.
  - intros [H|[]]. discriminate.
Qed.


(** A time range that [TimeRangeOf] rejects does not stop [GetChatlog]:
    the invalid argument is answered, and the handler still queries the
    store with the range it was given and goes on to answer a second
    time; with the format [json], the messages follow the error as a
    200. *)
Theorem GetChatlog_invalid_time_goes_on (c : Request) (q : chatlogQuery)
    (start end_ : Time) :
  BindQuery_chatlog api c = Ok q ->
  TimeRangeOf api (q_Time q) = (start, end_, false) ->
  exists rest,
    GetChatlog api c
    = Err (InvalidArg "time")
      :: db_GetMessages_call start end_ (q_Talker q) (q_Sender q) (q_Keyword q)
           (Z.max 0 (q_Limit q)) (Z.max 0 (q_Offset q))
      :: rest /\
    (forall err,
       db_GetMessages api start end_ (q_Talker q) (q_Sender q) (q_Keyword q)
         (Z.max 0 (q_Limit q)) (Z.max 0 (q_Offset q)) = Fail err ->
       rest = [Err err]) /\
    (forall messages,
       db_GetMessages api start end_ (q_Talker q) (q_Sender q) (q_Keyword q)
         (Z.max 0 (q_Limit q)) (Z.max 0 (q_Offset q)) = Ok messages ->
       Strings.ToLower (q_Format q) = "json" ->
       rest = [JSON StatusOK (J_messages messages)]).
Proof.
  intros Hq Ht. unfold GetChatlog. rewrite Hq, Ht, !clamp_max. cbn [negb app].
  eexists. split; [reflexivity|]. split.
  - intros err ->. reflexivity.
  - intros messages -> ->. reflexivity.
Qed.

(** [GetContacts] writes the same lines for the format [csv] and for
    any other format but [json]: the two answers differ in the
    [Content-Type] header only. *)
Theorem GetContacts_same_body (c1 c2 : Request) (q1 q2 : listQuery) :
  BindQuery_list api c1 = Ok q1 ->
  BindQuery_list api c2 = Ok q2 ->
  l_Keyword q1 = l_Keyword q2 -> l_Limit q1 = l_Limit q2 ->
  l_Offset q1 = l_Offset q2 ->
  Strings.ToLower (l_Format q1) = "csv" ->
  Strings.ToLower (l_Format q2) <> "csv" ->
  Strings.ToLower (l_Format q2) <> "json" ->
  written_strings (GetContacts api c1) = written_strings (GetContacts api c2) /\
  (forall list,
     db_GetContacts api (l_Keyword q1) (l_Limit q1) (l_Offset q1) = Ok list ->
     exists rest,
       GetContacts api c1
       = db_GetContacts_call (l_Keyword q1) (l_Limit q1) (l_Offset q1)
         :: Header_Set "Content-Type" "text/csv; charset=utf-8" :: rest /\
       GetContacts api c2
       = db_GetContacts_call (l_Keyword q1) (l_Limit q1) (l_Offset q1)
         :: Header_Set "Content-Type" "text/plain; charset=utf-8" :: rest /\
       written_strings rest
       = ("UserName,Alias,Remark,NickName" +++ LF)
         :: map contact_row (Contacts_Items list)).
Proof.
  intros H1 H2 Hk Hl Ho Hcsv Hn1 Hn2. unfold GetContacts.
  rewrite H1, H2, <- Hk, <- Hl, <- Ho, Hcsv.
  apply String.eqb_neq in Hn1, Hn2. rewrite Hn1, Hn2.
  change ("csv" =? "json") with false. change ("csv" =? "csv") with true. cbv iota.
  split.
  - destruct (db_GetContacts api _ _ _); reflexivity.
  - intros list ->. eexists. split; [reflexivity|]. split; [reflexivity|].
    change (written_strings (?a :: ?b :: ?c :: ?t)) with (written_strings t).
    rewrite written_strings_app. unfold contacts_csv.
    change (written_strings (WriteString ?s :: ?t)) with (s :: written_strings t).
    rewrite written_strings_rows. change (written_strings [Writer_Flush]) with (@nil string).
    now rewrite app_nil_r.
Qed.

(** The export of the contacts writes the lines that [GetContacts]
    writes for the format [csv] with an empty keyword and no limit or
    offset; only the headers around them, and the answer to a failure of
    the store, differ. *)
Theorem ExportAnalysisData_contacts (c c' : Request) (q : listQuery) :
  Request_Query c "type" = "contacts" ->
  BindQuery_list api c' = Ok q ->
  l_Keyword q = "" -> l_Limit q = 0%Z -> l_Offset q = 0%Z ->
  Strings.ToLower (l_Format q) = "csv" ->
  written_strings (ExportAnalysisData api c) = written_strings (GetContacts api c') /\
  (forall err, db_GetContacts api "" 0 0 = Fail err ->
     ExportAnalysisData api c
     = [db_GetContacts_call "" 0 0;
        JSON StatusInternalServerError (J_H [("error", "Failed to get contacts")])] /\
     GetContacts api c' = [db_GetContacts_call "" 0 0; Err err]).
Proof.
  intros Ht Hq Hk Hl Ho Hf. unfold ExportAnalysisData, GetContacts.
  rewrite Ht, Hq, Hk, Hl, Ho, Hf.
  change ("contacts" =? "sessions") with false.
  change ("contacts" =? "contacts") with true.
  change ("csv" =? "json") with false. cbv iota.
  split.
  - destruct (db_GetContacts api "" 0 0) as [list|err]; [|reflexivity].
    change (written_strings (?a :: ?t)) with (written_strings [a] ++ written_strings t).
    rewrite !written_strings_app. cbn [written_strings flat_map export_headers stream_headers app].
    now rewrite app_nil_r.
  - intros err ->. split; reflexivity.
Qed.

(** [GetAnalysisStats] always queries the store four times and always
    answers 200: a count is in the statistics exactly when its query
    succeeded, and the time of generation always is. *)
Theorem GetAnalysisStats_always_ok (c : Request) :
  let end_ := Now api 0 in
  let start := AddDate api end_ 0 0 (-7) in
  exists stats,
    GetAnalysisStats api c
    = [db_GetSessions_call "" 0 0; db_GetContacts_call "" 0 0;
       db_GetChatRooms_call "" 0 0; db_GetMessages_call start end_ "" "" "" 0 0;
       JSON StatusOK (J_stats stats)] /\
    map_get stats "total_sessions"
    = match db_GetSessions api "" 0 0 with
      | Ok sessions => Some (stat_count (List.length (Sessions_Items sessions)))
      | Fail _ => None
      end /\
    map_get stats "total_contacts"
    = match db_GetContacts api "" 0 0 with
      | Ok contacts => Some (stat_count (List.length (Contacts_Items contacts)))
      | Fail _ => None
      end /\
    map_get stats "total_chatrooms"
    = match db_GetChatRooms api "" 0 0 with
      | Ok chatrooms => Some (stat_count (List.length (ChatRooms_Items chatrooms)))
      | Fail _ => None
      end /\
    map_get stats "recent_messages"
    = match db_GetMessages api start end_ "" "" "" 0 0 with
      | Ok messages => Some (stat_count (List.length messages))
      | Fail _ => None
      end /\
    map_get stats "generated_at"
    = Some (stat_text (Format api (Now api 1) "2006-01-02 15:04:05")).
Proof.
  intros end_ start. unfold GetAnalysisStats. fold end_. fold start.
  eexists. split; [reflexivity|].
  destruct (db_GetSessions api "" 0 0), (db_GetContacts api "" 0 0),
           (db_GetChatRooms api "" 0 0), (db_GetMessages api start end_ "" "" "" 0 0);
    repeat split; reflexivity.
Qed.

(** A line feed in the content of a session never breaks its row: the
    content is written free of line feeds, each one replaced by the two
    bytes backslash and [n], and a content without line feeds is written
    as it is; the row ends with the only line feed that the number, the
    replaced content and the final byte contribute. *)
Theorem session_row_one_line (session : Session Time) :
  let lf := ascii_of_nat 10 in
  let content := Strings.ReplaceAll (Session_Content session) LF "\n" in
  Strings.free_of lf content = true /\
  String.length content
  = String.length (Session_Content session)
    + Strings.count_byte lf (Session_Content session) /\
  (Strings.free_of lf (Session_Content session) = true <->
   content = Session_Content session) /\
  Strings.count_byte lf (session_row api session)
  = 1 + Strings.count_byte lf (Session_UserName session)
    + Strings.count_byte lf (Session_NickName session)
    + Strings.count_byte lf (Time_String api (Session_NTime session)).
Proof.
  intros lf content. unfold content, Strings.ReplaceAll, LF. fold lf.
  assert (Strings.free_of lf
            (Strings.replace_scan (String lf "") "\n" 0 (Session_Content session))
          = true) as Hfree by (now apply RowFacts.replace_byte_free).
  pose proof (RowFacts.replace_byte_length lf "\n" (Session_Content session)) as Hlen.
  change (String.length "\n") with 2 in Hlen.
  split; [exact Hfree|]. split; [lia|]. split; [split|].
  - apply RowFacts.replace_byte_id.
  - intros E. now rewrite E in Hfree.
  - unfold session_row, Strings.ReplaceAll, LF. fold lf.
    rewrite !RowFacts.count_byte_app.
    apply RowFacts.count_byte_free in Hfree. rewrite Hfree.
    fold lf. change (ascii_of_nat 10) with lf.
    pose proof (RowFacts.Itoa_no_line_feed (Session_NOrder session)) as Hi.
    fold lf in Hi. rewrite Hi.
    change (Strings.count_byte lf ",") with 0.
    change (Strings.count_byte lf (String lf "")) with 1. lia.
Qed.

End ApiFacts.

Lemma SearchMessages_groups_witness :
  exists r,
    In (JSON StatusOK (J_search r))
       (SearchMessages DemoApi.api (DemoApi.request [("keyword", "hello")])) /\
    search_total_messages r = 4.
Proof.
  assert (Request_Query (DemoApi.request [("keyword", "hello")]) "keyword" <> "")
    as Hk by (vm_compute; discriminate).
  destruct (SearchMessages_groups Z DemoApi.api
              (DemoApi.request [("keyword", "hello")]) DemoApi.found Hk eq_refl)
    as (r & E & Ht & _).
  exists r. split; [rewrite E; simpl; auto|exact Ht].
Defined.

Lemma GetChatroomHistory_days_witness :
  exists r,
    In (JSON StatusOK (J_history r))
       (GetChatroomHistory DemoApi.api (DemoApi.request [("talker", "room1")])) /\
    total_days r = 2.
Proof.
  assert (Request_Query (DemoApi.request [("talker", "room1")]) "talker" <> "")
    as Hk by (vm_compute; discriminate).
  destruct (GetChatroomHistory_days Z DemoApi.api
              (DemoApi.request [("talker", "room1")]) DemoApi.found Hk eq_refl)
    as (r & E & _ & Hd & _).
  exists r. split; [rewrite E; simpl; auto|exact Hd].
Defined.

Lemma GetDailySummary_summaries_witness :
  exists r,
    In (JSON StatusOK (J_daily r))
       (GetDailySummary DemoApi.api (DemoApi.request [])) /\
    daily_total_messages r = 4 /\
    list_sum (map (fun entry => message_count (snd entry)) (summaries r)) = 3.
Proof.
  destruct (GetDailySummary_summaries Z DemoApi.api (DemoApi.request [])
              86400%Z DemoApi.found eq_refl eq_refl)
    as (r & E & Ht & _ & _ & _ & _ & Hs & _).
  exists r. split; [rewrite E; simpl; auto|]. split; [exact Ht|exact Hs].
Defined.

Lemma GetGoldenQuotes_quotes_witness :
  exists r,
    In (JSON StatusOK (J_quotes r))
       (GetGoldenQuotes DemoApi.api (DemoApi.request [])) /\
    total_quotes r <= 10.
Proof.
  destruct (GetGoldenQuotes_quotes Z DemoApi.api (DemoApi.request [])
              86400%Z DemoApi.found eq_refl eq_refl)
    as (r & E & _ & Hl & _).
  exists r. split; [rewrite E; simpl; auto|exact Hl].
Defined.

Lemma GetChatlog_limits_witness :
  exists q,
    BindQuery_chatlog DemoApi.api (DemoApi.request [("limit", "-2"); ("format", "json")])
    = Ok q /\
    q_Limit q = (-2)%Z /\ 0%Z = Z.max 0 (q_Limit q).
Proof.
  destruct (GetChatlog_limits Z DemoApi.api
              (DemoApi.request [("limit", "-2"); ("format", "json")])
              0%Z 86400%Z "" "" "" 0%Z 0%Z)
    as (q & E & Hl & _).
  - simpl. auto.
  - exists q. split; [exact E|]. split; [|exact Hl].
    vm_compute in E. now injection E as <-.
Defined.


Lemma GetChatlog_invalid_time_goes_on_witness :
  exists rest,
    GetChatlog DemoApi.api (DemoApi.request [("time", "never"); ("format", "json")])
    = Err (InvalidArg "time")
      :: db_GetMessages_call 0%Z 86400%Z "" "" "" 0%Z 0%Z :: rest /\
    rest = [JSON StatusOK (J_messages DemoApi.found)].
Proof.
  destruct (GetChatlog_invalid_time_goes_on Z DemoApi.api
              (DemoApi.request [("time", "never"); ("format", "json")])
              _ 0%Z 86400%Z eq_refl eq_refl)
    as (rest & E & _ & Hj).
  exists rest. split; [exact E|]. exact (Hj DemoApi.found eq_refl eq_refl).
Defined.

Lemma GetContacts_same_body_witness :
  written_strings (GetContacts DemoApi.api (DemoApi.request [("format", "csv")]))
  = written_strings (GetContacts DemoApi.api (DemoApi.request [("format", "text")])).
Proof.
  refine (proj1 (GetContacts_same_body Z DemoApi.api
                   (DemoApi.request [("format", "csv")])
                   (DemoApi.request [("format", "text")])
                   _ _ eq_refl eq_refl eq_refl eq_refl eq_refl eq_refl _ _));
    vm_compute; discriminate.
Defined.

Lemma ExportAnalysisData_contacts_witness :
  written_strings (ExportAnalysisData DemoApi.api (DemoApi.request [("type", "contacts")]))
  = written_strings (GetContacts DemoApi.api (DemoApi.request [("format", "csv")])).
Proof.
  exact (proj1 (ExportAnalysisData_contacts Z DemoApi.api
                  (DemoApi.request [("type", "contacts")])
                  (DemoApi.request [("format", "csv")])
                  _ eq_refl eq_refl eq_refl eq_refl eq_refl eq_refl)).
Defined.
